(** * CodeComparison: extraction and comparison of identifier codes

    A shallow embedding of [main.py]: the two extractors
    ([extract_codes_from_excel_or_csv], [extract_codes_from_text_or_word]),
    the comparator ([compare_codes]) and the part of [main] that builds the
    result table.

    Python values are modelled as follows.
    - [str] is a list of Unicode code points ([list N]).
    - [bytes] is a [list Byte.byte].
    - a [set] is a [gset]; its elements are [pyval]s, because [re.findall]
      yields either strings or tuples of strings.
    - exceptions and the calls to [st.error] are threaded through the small
      monad [App]. *)

From stdpp Require Import base option list sets gmap countable strings numbers pretty.
From Stdlib.Strings Require Byte.
From Stdlib.Strings Require Import Ascii.

Local Open Scope N_scope.

(** ** Python strings *)

Abbreviation char := N (only parsing).
Abbreviation str := (list N) (only parsing).

(** A source-code literal: every character of the literals used by the
    program is ASCII, whose code point is its byte value. *)
Definition py (s : string) : str :=
  map Ascii.N_of_ascii (String.list_ascii_of_string s).

(** [s.endswith(suffix)] *)
Definition endswith (s suffix : str) : bool :=
  bool_decide (drop (length s - length suffix)%nat s = suffix).

(** [sep.join(parts)] *)
Fixpoint join (sep : str) (parts : list str) : str :=
  match parts with
  | [] => []
  | [p] => p
  | p :: rest => p ++ sep ++ join sep rest
  end.

(** [s[i:j]] for [0 <= i], [0 <= j] *)
Definition slice (s : str) (i j : nat) : str := take (j - i)%nat (drop i s).

(** ** Values held in the code sets *)

Inductive pyval :=
  | PStr (s : str)
  | PTuple (items : list str).

#[global] Instance pyval_eq_dec : EqDecision pyval.
Proof. solve_decision. Defined.

Definition pyval_to_sum (v : pyval) : str + list str :=
  match v with PStr s => inl s | PTuple l => inr l end.

Definition pyval_of_sum (x : str + list str) : pyval :=
  match x with inl s => PStr s | inr l => PTuple l end.

#[global] Instance pyval_countable : Countable pyval.
Proof.
  apply (inj_countable' pyval_to_sum pyval_of_sum).
  by intros [].
Defined.

Abbreviation CodeSet := (gset pyval) (only parsing).

(** ** The comparator (main.py, lines 31-35) *)

Definition compare_codes (excel_codes word_codes : CodeSet)
  : CodeSet * CodeSet * CodeSet :=
  let matching_codes := excel_codes ∩ word_codes in
  let codes_only_in_excel := excel_codes ∖ word_codes in
  let codes_only_in_word := word_codes ∖ excel_codes in
  (matching_codes, codes_only_in_excel, codes_only_in_word).

(** The same function on Python's heap: sets are mutable objects, a call
    receives two references, leaves both operands untouched and allocates
    three fresh sets ([intersection] and [-] both build new objects). *)

Abbreviation ref := nat (only parsing).
Abbreviation heap := (gmap nat (gset pyval)) (only parsing).

Definition fresh_ref (h : heap) : ref := fresh (dom h).

Definition alloc (s : CodeSet) (h : heap) : ref * heap :=
  let r := fresh_ref h in (r, <[r := s]> h).

Definition compare_codes_heap (excel_codes word_codes : ref) (h : heap)
  : option (ref * ref * ref * heap) :=
  e ← h !! excel_codes;
  w ← h !! word_codes;
  let '(matching_codes, h1) := alloc (e ∩ w) h in
  e1 ← h1 !! excel_codes;
  w1 ← h1 !! word_codes;
  let '(codes_only_in_excel, h2) := alloc (e1 ∖ w1) h1 in
  w2 ← h2 !! word_codes;
  e2 ← h2 !! excel_codes;
  let '(codes_only_in_word, h3) := alloc (w2 ∖ e2) h2 in
  Some (matching_codes, codes_only_in_excel, codes_only_in_word, h3).

(** The contents of a returned triple of references. *)
Definition deref3 (h : heap) (t : ref * ref * ref)
  : option (CodeSet * CodeSet * CodeSet) :=
  let '(a, b, c) := t in
  x ← h !! a; y ← h !! b; z ← h !! c; Some (x, y, z).

(** ** Exceptions, UI events and the [App] monad *)

Inductive exn :=
  | IndexError
  | UnicodeDecodeError
  | ReError (msg : string)
  | OverflowError
  | ValueError
  | LibraryError (what : string)
  | OutsideModel (what : string).

Inductive ui_event :=
  | StError (msg : str).

Inductive outcome (A : Type) :=
  | Returned (a : A)
  | Raised (e : exn).
Arguments Returned {A} a.
Arguments Raised {A} e.

#[global] Instance exn_eq_dec : EqDecision exn.
Proof. solve_decision. Defined.
#[global] Instance ui_event_eq_dec : EqDecision ui_event.
Proof. solve_decision. Defined.
#[global] Instance outcome_eq_dec `{EqDecision A} : EqDecision (outcome A).
Proof. solve_decision. Defined.

Definition App (A : Type) : Type := list ui_event → outcome A * list ui_event.

Definition app_ret {A} (a : A) : App A := λ ui, (Returned a, ui).
Definition app_raise {A} (e : exn) : App A := λ ui, (Raised e, ui).
Definition app_bind {A B} (m : App A) (f : A → App B) : App B :=
  λ ui, match m ui with
        | (Returned a, ui') => f a ui'
        | (Raised e, ui') => (Raised e, ui')
        end.
Definition app_lift {A} (x : exn + A) : App A :=
  match x with inl e => app_raise e | inr a => app_ret a end.

(** [st.error(msg)] *)
Definition st_error (msg : str) : App unit :=
  λ ui, (Returned (), ui ++ [StError msg]).

#[global] Instance app_mret : MRet App := @app_ret.
#[global] Instance app_mbind : MBind App := λ A B f m, app_bind m f.

(** Results of library calls that may raise. *)
Definition try_bind {A B} (m : exn + A) (f : A → exn + B) : exn + B :=
  match m with inl e => inl e | inr a => f a end.

Notation "x <- m ; k" := (try_bind m (λ x, k))
  (at level 20, m at level 100, k at level 200, only parsing).
Notation "' pat <- m ; k" := (try_bind m (λ x, match x with pat => k end))
  (at level 20, pat pattern, m at level 100, k at level 200, only parsing).

(** Running a program from an empty page. *)
Definition run {A} (m : App A) : outcome A * list ui_event := m [].

(** ** Regular expressions: Python's [re] module

    [re.findall] is library code.  It is modelled here for the pattern
    language made of literals, [.], character sets, the category escapes
    [\d \D \s \S \w \W], the anchors [^ $ \A \Z \b \B], alternation,
    capturing and non-capturing groups, and greedy and lazy repetition.
    The parser follows [sre_parse] (CPython 3.11) token by token; every other
    construct of the pattern language is reported as [OutsideModel], never
    as an accepted pattern nor as a syntax error. *)

Inductive category :=
  | CatDigit | CatNotDigit | CatSpace | CatNotSpace | CatWord | CatNotWord.

Inductive set_item :=
  | SLiteral (c : char)
  | SRange (lo hi : char)
  | SCategory (k : category).

Inductive at_code :=
  | AtBeginning | AtEnd | AtBeginningString | AtEndString
  | AtBoundary | AtNonBoundary.

Inductive regex :=
  | Empty
  | Literal (c : char)
  | NotLiteral (c : char)
  | AnyChar
  | In (negate : bool) (items : list set_item)
  | At (a : at_code)
  | Seq (r1 r2 : regex)
  | Branch (r1 r2 : regex)
  | Repeat (greedy : bool) (lo : N) (hi : option N) (r : regex)
  | Subpattern (group : option nat) (r : regex).

(** *** The tokenizer ([sre_parse.Tokenizer])

    A token is one character, or a backslash with the character after it.
    The tokenizer always holds the next token, so a pattern that ends in a
    lone backslash is rejected when the token before it is consumed. *)

Abbreviation token := (list N) (only parsing).

Record Source := { src_next : option token; src_rest : str }.

Definition ord (a : Ascii.ascii) : N := Ascii.N_of_ascii a.
Arguments ord a%_char.

Definition fetch (s : str) : exn + Source :=
  match s with
  | [] => inr {| src_next := None; src_rest := [] |}
  | c :: s' =>
      if c =? ord "\" then
        match s' with
        | [] => inl (ReError "bad escape (end of pattern)")
        | d :: s'' => inr {| src_next := Some [c; d]; src_rest := s'' |}
        end
      else inr {| src_next := Some [c]; src_rest := s' |}
  end.

(** [source.get()] *)
Definition sourceget (src : Source) : exn + (option token * Source) :=
  src' <- fetch (src_rest src) ; inr (src_next src, src').

(** [source.match(c)] *)
Definition sourcematch (c : N) (src : Source) : exn + (bool * Source) :=
  if bool_decide (src_next src = Some [c]) then
    src' <- fetch (src_rest src) ; inr (true, src')
  else inr (false, src).

Definition in_range (lo hi c : N) : bool := (lo <=? c) && (c <=? hi).

Definition is_ascii_digit (c : N) : bool := in_range 48 57 c.
Definition is_ascii_letter (c : N) : bool := in_range 65 90 c || in_range 97 122 c.

(** *** The parser ([sre_parse._parse_sub], [_parse], [_escape],
    [_class_escape])

    Error messages are kept without the offending text and position that
    CPython appends to them. *)

#[global] Instance category_eq_dec : EqDecision category.
Proof. solve_decision. Defined.
#[global] Instance set_item_eq_dec : EqDecision set_item.
Proof. solve_decision. Defined.

Definition MAXREPEAT : N := 4294967295.

(** The escapes that stand for one character, shared by both contexts. *)
Definition ESCAPES (c : N) : option N :=
  if c =? ord "a" then Some 7
  else if c =? ord "b" then Some 8
  else if c =? ord "f" then Some 12
  else if c =? ord "n" then Some 10
  else if c =? ord "r" then Some 13
  else if c =? ord "t" then Some 9
  else if c =? ord "v" then Some 11
  else if c =? ord "\" then Some 92
  else None.

Definition CATEGORIES (c : N) : option regex :=
  if c =? ord "A" then Some (At AtBeginningString)
  else if c =? ord "b" then Some (At AtBoundary)
  else if c =? ord "B" then Some (At AtNonBoundary)
  else if c =? ord "d" then Some (In false [SCategory CatDigit])
  else if c =? ord "D" then Some (In false [SCategory CatNotDigit])
  else if c =? ord "s" then Some (In false [SCategory CatSpace])
  else if c =? ord "S" then Some (In false [SCategory CatNotSpace])
  else if c =? ord "w" then Some (In false [SCategory CatWord])
  else if c =? ord "W" then Some (In false [SCategory CatNotWord])
  else if c =? ord "Z" then Some (At AtEndString)
  else None.

(** Escapes whose meaning needs numbers, names or group references. *)
Definition numeric_escape (c : N) : bool :=
  (c =? ord "x") || (c =? ord "u") || (c =? ord "U") || (c =? ord "N")
  || is_ascii_digit c.

(** [_escape]: [c] is the character after the backslash. *)
Definition escape (c : N) : exn + regex :=
  match CATEGORIES c with
  | Some code => inr code
  | None =>
      match ESCAPES c with
      | Some l => inr (Literal l)
      | None =>
          if numeric_escape c then inl (OutsideModel "numeric escape")
          else if is_ascii_letter c then inl (ReError "bad escape")
          else inr (Literal c)
      end
  end.

(** [_class_escape] *)
Definition class_escape (c : N) : exn + set_item :=
  match ESCAPES c with
  | Some l => inr (SLiteral l)
  | None =>
      match CATEGORIES c with
      | Some (In _ [item]) => inr item
      | _ =>
          if (c =? ord "8") || (c =? ord "9") then inl (ReError "bad escape")
          else if numeric_escape c then inl (OutsideModel "numeric escape")
          else if is_ascii_letter c then inl (ReError "bad escape")
          else inr (SLiteral c)
      end
  end.

(** One member of a character set, from a token. *)
Definition set_member (tok : token) : exn + set_item :=
  match tok with
  | [c] => inr (SLiteral c)
  | [_; c] => class_escape c
  | _ => inl (OutsideModel "token")
  end.

(** The body of a character set, after [[] and an optional [^]. *)
Fixpoint parse_set (fuel : nat) (set : list set_item) (src : Source)
  : exn + (list set_item * Source) :=
  match fuel with
  | O => inl (OutsideModel "fuel")
  | S fuel =>
      '(this, src) <- sourceget src ;
      match this with
      | None => inl (ReError "unterminated character set")
      | Some this =>
          if bool_decide (this = [ord "]"]) && bool_decide (set ≠ []) then
            inr (set, src)
          else
            code1 <- set_member this ;
            '(dash, src) <- sourcematch (ord "-") src ;
            if dash then
              '(that, src) <- sourceget src ;
              match that with
              | None => inl (ReError "unterminated character set")
              | Some that =>
                  if bool_decide (that = [ord "]"]) then
                    inr (set ++ [code1; SLiteral (ord "-")], src)
                  else
                    code2 <- set_member that ;
                    match code1, code2 with
                    | SLiteral lo, SLiteral hi =>
                        if hi <? lo then inl (ReError "bad character range")
                        else parse_set fuel (set ++ [SRange lo hi]) src
                    | _, _ => inl (ReError "bad character range")
                    end
              end
            else parse_set fuel (set ++ [code1]) src
      end
  end.

(** The item that a finished character set stands for. *)
Definition set_code (negate : bool) (set : list set_item) : regex :=
  match remove_dups set with
  | [SLiteral c] => if negate then NotLiteral c else Literal c
  | set' => In negate set'
  end.

(** [while source.next in DIGITS: lo += sourceget()] *)
Fixpoint read_digits (fuel : nat) (acc : list N) (src : Source)
  : exn + (list N * Source) :=
  match fuel with
  | O => inl (OutsideModel "fuel")
  | S fuel =>
      match src_next src with
      | Some [c] =>
          if is_ascii_digit c then
            '(_, src) <- sourceget src;
            read_digits fuel (acc ++ [c]) src
          else inr (acc, src)
      | _ => inr (acc, src)
      end
  end.

(** [int(digits)] *)
Definition int_of_digits (ds : list N) : N :=
  foldl (λ n d, 10 * n + (d - 48)) 0 ds.

(** The bounds announced by a repetition operator; [None] when a [{] turns
    out to be an ordinary character, in which case parsing resumes right
    after it. *)
Definition repeat_bounds (fuel : nat) (op : N) (src : Source)
  : exn + (option (N * option N) * Source) :=
  if op =? ord "?" then inr (Some (0, Some 1), src)
  else if op =? ord "*" then inr (Some (0, None), src)
  else if op =? ord "+" then inr (Some (1, None), src)
  else
    if bool_decide (src_next src = Some [ord "}"]) then inr (None, src)
    else
      '(lo, src1) <- read_digits fuel [] src;
      '(comma, src1) <- sourcematch (ord ",") src1;
      '(hi, src1) <- (if comma then read_digits fuel [] src1 else inr (lo, src1));
      '(close, src1) <- sourcematch (ord "}") src1;
      if negb close then inr (None, src)
      else
        let min := match lo with [] => 0 | _ => int_of_digits lo end in
        if MAXREPEAT <=? min then inl OverflowError
        else
          match hi with
          | [] => inr (Some (min, None), src1)
          | _ =>
              let max := int_of_digits hi in
              if MAXREPEAT <=? max then inl OverflowError
              else if max <? min then
                inl (ReError "min repeat greater than max repeat")
              else inr (Some (min, Some max), src1)
          end.

Definition SPECIAL_CHARS : list N :=
  [ord "."; ord "\"; ord "["; ord "{"; ord "("; ord ")"; ord "*"; ord "+";
   ord "?"; ord "^"; ord "$"; ord "|"].

Definition REPEAT_CHARS : list N := [ord "*"; ord "+"; ord "?"; ord "{"].

(** The characters that may follow [(?] in CPython and open a construct
    left out of this model. *)
Definition EXTENSION_CHARS : list N :=
  [ord "P"; ord "#"; ord "="; ord "!"; ord "<"; ord "("; ord ">"; ord "-";
   ord "a"; ord "i"; ord "L"; ord "m"; ord "s"; ord "u"; ord "x"].

Definition seq_of (items : list regex) : regex := foldr Seq Empty items.

(** The item that a repetition operator applies to: the last one parsed. *)
Definition repeat_target (items : list regex) : exn + regex :=
  match list.last items with
  | None => inl (ReError "nothing to repeat")
  | Some (At _) => inl (ReError "nothing to repeat")
  | Some (Repeat _ _ _ _) => inl (ReError "multiple repeat")
  | Some (Subpattern None p) => inr p
  | Some item => inr item
  end.

(** [_parse_sub] and [_parse]: [groups] counts the capturing groups opened
    so far; [items] is the sequence parsed so far at this level. *)
Fixpoint parse_sub (fuel : nat) (src : Source) (groups : nat)
  : exn + (regex * Source * nat) :=
  match fuel with
  | O => inl (OutsideModel "fuel")
  | S fuel =>
      '(items, src, groups) <- parse_items fuel [] src groups;
      '(bar, src) <- sourcematch (ord "|") src;
      if bar then
        '(alt, src, groups) <- parse_sub fuel src groups;
        inr (Branch (seq_of items) alt, src, groups)
      else inr (seq_of items, src, groups)
  end
with parse_items (fuel : nat) (items : list regex) (src : Source)
    (groups : nat) : exn + (list regex * Source * nat) :=
  match fuel with
  | O => inl (OutsideModel "fuel")
  | S fuel =>
      match src_next src with
      | None => inr (items, src, groups)
      | Some [_; c] =>
          '(_, src) <- sourceget src;
          code <- escape c;
          parse_items fuel (items ++ [code]) src groups
      | Some [c] =>
          if (c =? ord "|") || (c =? ord ")") then inr (items, src, groups)
          else
            '(_, src) <- sourceget src;
            if negb (bool_decide (c ∈ SPECIAL_CHARS)) then
              parse_items fuel (items ++ [Literal c]) src groups
            else if c =? ord "[" then
              '(negate, src) <- sourcematch (ord "^") src;
              '(set, src) <- parse_set fuel [] src;
              parse_items fuel (items ++ [set_code negate set]) src groups
            else if bool_decide (c ∈ REPEAT_CHARS) then
              '(bounds, src) <- repeat_bounds fuel c src;
              match bounds with
              | None => parse_items fuel (items ++ [Literal c]) src groups
              | Some (min, max) =>
                  item <- repeat_target items;
                  '(lazy, src) <- sourcematch (ord "?") src;
                  '(possessive, src) <-
                    (if lazy then inr (false, src)
                     else sourcematch (ord "+") src);
                  if possessive then inl (OutsideModel "possessive repeat")
                  else
                    parse_items fuel
                      (removelast items ++ [Repeat (negb lazy) min max item])
                      src groups
              end
            else if c =? ord "." then
              parse_items fuel (items ++ [AnyChar]) src groups
            else if c =? ord "(" then
              '(ext, src) <- sourcematch (ord "?") src;
              '(capture, src) <-
                (if ext then
                   '(char, src) <- sourceget src;
                   match char with
                   | None => inl (ReError "unexpected end of pattern")
                   | Some [k] =>
                       if k =? ord ":" then inr (false, src)
                       else if bool_decide (k ∈ EXTENSION_CHARS) then
                         inl (OutsideModel "group extension")
                       else inl (ReError "unknown extension")
                   | Some _ => inl (ReError "unknown extension")
                   end
                 else inr (true, src));
              let group := if capture then Some (S groups) else None in
              let groups := if capture then S groups else groups in
              '(p, src, groups) <- parse_sub fuel src groups;
              '(close, src) <- sourcematch (ord ")") src;
              if negb close then
                inl (ReError "missing ), unterminated subpattern")
              else
                parse_items fuel (items ++ [Subpattern group p]) src groups
            else if c =? ord "^" then
              parse_items fuel (items ++ [At AtBeginning]) src groups
            else if c =? ord "$" then
              parse_items fuel (items ++ [At AtEnd]) src groups
            else inl (OutsideModel "token")
      | Some _ => inl (OutsideModel "token")
      end
  end.

(** [sre_parse.parse]: the parsed pattern and its number of capturing
    groups. *)
Definition parse (pattern : str) : exn + (regex * nat) :=
  src <- fetch pattern;
  '(p, src, groups) <- parse_sub (2 * length pattern + 4) src 0%nat;
  match src_next src with
  | Some _ => inl (ReError "unbalanced parenthesis")
  | None => inr (p, groups)
  end.

(** *** The matcher ([_sre]: [SRE(match)], [SRE(search)])

    The backtracking engine is modelled by the list of all the ways a
    pattern can match from a state, in the order in which the engine tries
    them: the head of the list is the match the engine reports.

    The Unicode character database is a parameter: the three tables below
    are consulted for code points outside ASCII only. *)

Record mstate := { pos : nat; marks : gmap nat (nat * nat) }.

Definition initial (i : nat) : mstate := {| pos := i; marks := ∅ |}.
Definition advance (st : mstate) : mstate :=
  {| pos := S (pos st); marks := marks st |}.
Definition set_mark (g i j : nat) (st : mstate) : mstate :=
  {| pos := pos st; marks := <[g := (i, j)]> (marks st) |}.

(** Exactly [n] repetitions of [body]. *)
Fixpoint rep_min (body : mstate → list mstate) (n : nat) (st : mstate)
  : list mstate :=
  match n with
  | O => [st]
  | S n => st' ← body st; rep_min body n st'
  end.

Definition may_repeat (left : option N) : bool :=
  match left with None => true | Some k => 0 <? k end.

(** The repetitions beyond the minimum ([MAX_UNTIL], [MIN_UNTIL]): another
    one is tried only when the position differs from the one at which the
    previous one was started ([last_ptr]), which also bounds their number by
    the length of the text. *)
Fixpoint rep_more (body : mstate → list mstate) (greedy : bool) (fuel : nat)
    (left : option N) (last_ptr : option nat) (st : mstate) : list mstate :=
  match fuel with
  | O => [st]
  | S fuel =>
      let more :=
        if may_repeat left && negb (bool_decide (last_ptr = Some (pos st)))
        then st' ← body st;
             rep_more body greedy fuel (N.pred <$> left) (Some (pos st)) st'
        else [] in
      if greedy then more ++ [st] else st :: more
  end.

Section Matcher.
Variables uni_isdecimal uni_isspace uni_isalnum : N → bool.

Definition is_digit (c : N) : bool :=
  if c <? 128 then is_ascii_digit c else uni_isdecimal c.

Definition is_space (c : N) : bool :=
  if c <? 128 then in_range 9 13 c || in_range 28 32 c
  else uni_isspace c.

Definition is_word (c : N) : bool :=
  if c <? 128 then is_ascii_digit c || is_ascii_letter c || (c =? ord "_")
  else uni_isalnum c.

Definition category_test (k : category) (c : N) : bool :=
  match k with
  | CatDigit => is_digit c
  | CatNotDigit => negb (is_digit c)
  | CatSpace => is_space c
  | CatNotSpace => negb (is_space c)
  | CatWord => is_word c
  | CatNotWord => negb (is_word c)
  end.

Definition set_item_test (i : set_item) (c : N) : bool :=
  match i with
  | SLiteral l => c =? l
  | SRange lo hi => in_range lo hi c
  | SCategory k => category_test k c
  end.

Definition charset_test (negate : bool) (items : list set_item) (c : N)
  : bool :=
  xorb negate (existsb (λ i, set_item_test i c) items).

Variable text : list N.

Definition word_at (i : nat) : bool :=
  match text !! i with Some c => is_word c | None => false end.

Definition at_test (a : at_code) (i : nat) : bool :=
  match a with
  | AtBeginning | AtBeginningString => bool_decide (i = 0%nat)
  | AtEnd =>
      bool_decide (i = length text)
      || (bool_decide (S i = length text)
          && bool_decide (text !! i = Some 10))
  | AtEndString => bool_decide (i = length text)
  | AtBoundary =>
      if bool_decide (length text = 0%nat) then false
      else
        let that := match i with O => false | S j => word_at j end in
        negb (Bool.eqb (word_at i) that)
  | AtNonBoundary =>
      if bool_decide (length text = 0%nat) then false
      else
        let that := match i with O => false | S j => word_at j end in
        Bool.eqb (word_at i) that
  end.

(** Consuming one character that satisfies [p]. *)
Definition one_char (p : N → bool) (st : mstate) : list mstate :=
  match text !! pos st with
  | Some c => if p c then [advance st] else []
  | None => []
  end.

Fixpoint exec (r : regex) (st : mstate) : list mstate :=
  match r with
  | Empty => [st]
  | Literal c => one_char (λ d, d =? c) st
  | NotLiteral c => one_char (λ d, negb (d =? c)) st
  | AnyChar => one_char (λ d, negb (d =? 10)) st
  | In negate items => one_char (charset_test negate items) st
  | At a => if at_test a (pos st) then [st] else []
  | Seq r1 r2 => st' ← exec r1 st; exec r2 st'
  | Branch r1 r2 => exec r1 st ++ exec r2 st
  | Repeat greedy lo hi r =>
      st' ← rep_min (exec r) (N.to_nat lo) st;
      rep_more (exec r) greedy (S (length text))
        ((λ h, h - lo) <$> hi) None st'
  | Subpattern None r => exec r st
  | Subpattern (Some g) r =>
      (λ st', set_mark g (pos st) (pos st') st') <$> exec r st
  end.

(** One attempt at position [i]; with [must_advance], an empty match is
    not accepted and the engine backtracks into the next alternative. *)
Definition match_at (r : regex) (must_advance : bool) (i : nat)
  : option mstate :=
  List.find (λ st, negb (must_advance && bool_decide (pos st = i)))
    (exec r (initial i)).

Fixpoint search_in (r : regex) (candidates : list nat)
  : option (nat * mstate) :=
  match candidates with
  | [] => None
  | i :: rest =>
      match match_at r false i with
      | Some st => Some (i, st)
      | None => search_in r rest
      end
  end.

(** [SRE(search)] from [start <= len(text)]: the leftmost position at
    which the pattern matches; [must_advance] binds at [start] only. *)
Definition search (r : regex) (must_advance : bool) (start : nat)
  : option (nat * mstate) :=
  match match_at r must_advance start with
  | Some st => Some (start, st)
  | None => search_in r (seq (S start) (length text - start))
  end.

(** The loop of [findall] and [finditer]: successive searches, each
    starting where the previous match ended. *)
Fixpoint scan (fuel : nat) (r : regex) (must_advance : bool) (start : nat)
  : list (nat * mstate) :=
  match fuel with
  | O => []
  | S fuel =>
      if bool_decide (start ≤ length text)%nat then
        match search r must_advance start with
        | None => []
        | Some (s, st) =>
            (s, st) :: scan fuel r (bool_decide (pos st = s)) (pos st)
        end
      else []
  end.

Definition finditer (r : regex) : list (nat * mstate) :=
  scan (2 * length text + 3) r false 0%nat.

(** The whole match, [m.group(0)]. *)
Definition matched_text (m : nat * mstate) : str :=
  slice text (fst m) (pos (snd m)).

(** [m.group(g)], with the empty string for a group that took no part. *)
Definition group_text (m : nat * mstate) (g : nat) : str :=
  match marks (snd m) !! g with
  | Some (i, j) => slice text i j
  | None => []
  end.

(** What [findall] reports for one match. *)
Definition findall_item (groups : nat) (m : nat * mstate) : pyval :=
  match groups with
  | 0%nat => PStr (matched_text m)
  | 1%nat => PStr (group_text m 1)
  | _ => PTuple (group_text m <$> seq 1 groups)
  end.
End Matcher.

(** ** Decoding: [bytes.decode('utf-8')]

    The strict decoder: overlong forms, surrogates and values above
    U+10FFFF are rejected, and a byte-order mark is an ordinary character. *)

Definition continuation (b : N) : bool := in_range 0x80 0xBF b.

Fixpoint utf8_decode (bs : list N) : option (list N) :=
  match bs with
  | [] => Some []
  | b0 :: r0 =>
      if b0 <? 0x80 then cons b0 <$> utf8_decode r0
      else if in_range 0xC2 0xDF b0 then
        match r0 with
        | b1 :: r1 =>
            if continuation b1 then
              cons ((b0 - 0xC0) * 64 + (b1 - 0x80)) <$> utf8_decode r1
            else None
        | _ => None
        end
      else if in_range 0xE0 0xEF b0 then
        match r0 with
        | b1 :: b2 :: r2 =>
            let lo := if b0 =? 0xE0 then 0xA0 else 0x80 in
            let hi := if b0 =? 0xED then 0x9F else 0xBF in
            if in_range lo hi b1 && continuation b2 then
              cons ((b0 - 0xE0) * 4096 + (b1 - 0x80) * 64 + (b2 - 0x80))
                <$> utf8_decode r2
            else None
        | _ => None
        end
      else if in_range 0xF0 0xF4 b0 then
        match r0 with
        | b1 :: b2 :: b3 :: r3 =>
            let lo := if b0 =? 0xF0 then 0x90 else 0x80 in
            let hi := if b0 =? 0xF4 then 0x8F else 0xBF in
            if in_range lo hi b1 && continuation b2 && continuation b3 then
              cons ((b0 - 0xF0) * 262144 + (b1 - 0x80) * 4096
                    + (b2 - 0x80) * 64 + (b3 - 0x80))
                <$> utf8_decode r3
            else None
        | _ => None
        end
      else None
  end.

Definition decode (bs : list Byte.byte) : exn + str :=
  match utf8_decode (Byte.to_N <$> bs) with
  | Some s => inr s
  | None => inl UnicodeDecodeError
  end.

(** ** Tables: what [pandas] hands to the program

    A data frame is a list of named columns of equal length, the header row
    giving the names.  A cell is what the readers produce with their default
    settings: a string, an integer, a boolean, a float, or the missing-value
    marker NaN.  A float other than NaN is carried by the text that [str]
    gives for it, which identifies it. *)

Inductive cell :=
  | CStr (s : str)
  | CInt (z : Z)
  | CBool (b : bool)
  | CFloat (repr : str)
  | CNaN.

Record DataFrame := { df_columns : list (str * list cell) }.

(** [str(x)] for the value of a cell *)
Definition cell_str (c : cell) : str :=
  match c with
  | CStr s => s
  | CInt z => py (pretty z)
  | CBool true => py "True"
  | CBool false => py "False"
  | CFloat repr => repr
  | CNaN => py "nan"
  end.

(** [df.iloc[:, i]] *)
Definition iloc_column (df : DataFrame) (i : nat) : exn + list cell :=
  match df_columns df !! i with
  | Some (_, series) => inr series
  | None => inl IndexError
  end.

(** [series.astype(str)] *)
Definition astype_str (series : list cell) : list str := cell_str <$> series.

(** The table built by [main]: a cell holds a code or [None]. *)
Abbreviation ResultFrame := (list (string * list (option pyval))) (only parsing).

(** [pd.DataFrame(dict)] on a dictionary of lists *)
Definition pd_DataFrame (data : ResultFrame) : exn + ResultFrame :=
  match data with
  | [] => inr data
  | (_, col) :: rest =>
      if forallb (λ c, Nat.eqb (length c.2) (length col)) rest then inr data
      else inl ValueError
  end.

(** An uploaded file *)
Record UploadedFile := { name : str; content : list Byte.byte }.

(** ** The program *)

Section Program.
(** The Unicode character database, outside ASCII. *)
Variables uni_isdecimal uni_isspace uni_isalnum : N → bool.
(** [docx.Document(file)]: the texts of the paragraphs, in document
    order. *)
Variable docx_Document : list Byte.byte → exn + list (list N).
(** [pd.read_excel(file)] and [pd.read_csv(file)]. *)
Variables pd_read_excel pd_read_csv : list Byte.byte → exn + DataFrame.
(** [list(s)] for a set [s]: its members, in an order of Python's
    choosing. *)
Variable set_order : gset pyval → list pyval.

(** [re.findall(pattern, text)] *)
Definition re_findall (pattern text : str) : exn + list pyval :=
  '(r, groups) <- parse pattern;
  inr (findall_item text groups
         <$> finditer uni_isdecimal uni_isspace uni_isalnum text r).

(** main.py, line 16: [set(df.iloc[:, 0].astype(str))] *)
Definition first_column_codes (df : DataFrame) : App (gset pyval) :=
  series ← app_lift (iloc_column df 0);
  mret (list_to_set (PStr <$> astype_str series)).

(** main.py, lines 8-17 *)
Definition extract_codes_from_excel_or_csv (file : UploadedFile)
  : App (gset pyval) :=
  if endswith (name file) (py ".xlsx") then
    df ← app_lift (pd_read_excel (content file));
    first_column_codes df
  else if endswith (name file) (py ".csv") then
    df ← app_lift (pd_read_csv (content file));
    first_column_codes df
  else
    st_error (py "Unsupported file format!");;
    mret ∅.

(** main.py, line 28: [set(re.findall(pattern, text))] *)
Definition pattern_codes (pattern text : str) : App (gset pyval) :=
  found ← app_lift (re_findall pattern text);
  mret (list_to_set found).

(** main.py, lines 19-29 *)
Definition extract_codes_from_text_or_word (file : UploadedFile)
    (pattern : str) : App (gset pyval) :=
  if endswith (name file) (py ".docx") then
    paragraphs ← app_lift (docx_Document (content file));
    pattern_codes pattern (join [10] paragraphs)
  else if endswith (name file) (py ".txt") then
    text ← app_lift (decode (content file));
    pattern_codes pattern text
  else
    st_error (py "Unsupported file format!");;
    mret ∅.

(** main.py, lines 58-69: the three columns, padded with [None] to the
    size of the largest set. *)
Definition padded (max_len : nat) (codes : gset pyval)
  : list (option pyval) :=
  (Some <$> set_order codes) ++ replicate (max_len - size codes)%nat None.

Definition result_columns
    (matching_codes codes_only_in_excel codes_only_in_word : CodeSet)
  : ResultFrame :=
  let max_len :=
    Nat.max (size matching_codes)
      (Nat.max (size codes_only_in_excel) (size codes_only_in_word)) in
  [ ("Matching codes"%string, padded max_len matching_codes);
    ("Codes only in Excel/CSV"%string, padded max_len codes_only_in_excel);
    ("Codes only in Word/TXT"%string, padded max_len codes_only_in_word) ].

(** main.py, lines 49-69.  The arguments are the values of the three
    widgets; the result is [result_df], or [None] while a file is missing.
    Rendering the table (the download button and the three panels) is not
    part of the model. *)
Definition main (code_file text_file : option UploadedFile)
    (custom_pattern : str) : App (option ResultFrame) :=
  match code_file, text_file with
  | Some code_file, Some text_file =>
      excel_codes ← extract_codes_from_excel_or_csv code_file;
      word_codes ← extract_codes_from_text_or_word text_file custom_pattern;
      let '(matching_codes, codes_only_in_excel, codes_only_in_word) :=
        compare_codes excel_codes word_codes in
      result_df ← app_lift (pd_DataFrame
        (result_columns matching_codes codes_only_in_excel
           codes_only_in_word));
      mret (Some result_df)
  | _, _ => mret None
  end.

(** The user-editable pattern's default value. *)
Definition default_pattern : str := py "INT-\d+".

(** ** Vocabulary of the specification *)

(** A recognized tabular input: the name selects a reader, and the reader
    parses the content into [df]. *)
Definition parsed_as (file : UploadedFile) (df : DataFrame) : Prop :=
  (endswith (name file) (py ".xlsx") = true
   ∧ pd_read_excel (content file) = inr df)
  ∨ (endswith (name file) (py ".xlsx") = false
     ∧ endswith (name file) (py ".csv") = true
     ∧ pd_read_csv (content file) = inr df).

(** A recognized text document: the paragraphs of a [.docx] joined by
    newlines in document order, or a [.txt] decoded as UTF-8. *)
Definition document_text (file : UploadedFile) (text : str) : Prop :=
  (endswith (name file) (py ".docx") = true
   ∧ ∃ paragraphs, docx_Document (content file) = inr paragraphs
                   ∧ text = join [10] paragraphs)
  ∨ (endswith (name file) (py ".docx") = false
     ∧ endswith (name file) (py ".txt") = true
     ∧ decode (content file) = inr text).


(** What is left of a pattern: the characters not yet made into a token,
    plus one for the token held. *)
Definition src_size (src : Source) : nat :=
  (length (src_rest src)
   + match src_next src with Some _ => 1 | None => 0 end)%nat.

(** A parse that did not stop for lack of fuel. *)
Definition fueled {A} (x : exn + A) : Prop := x ≠ inl (OutsideModel "fuel").

(** A matching step only moves forward, and stays inside the text. *)
Definition forward (len : nat) (body : mstate → list mstate) : Prop :=
  ∀ st st', st' ∈ body st →
    (pos st ≤ pos st')%nat ∧ ((pos st ≤ len)%nat → (pos st' ≤ len)%nat).

(** A column of the output lists exactly the members of a set, then
    blanks. *)
Definition lists_members (column : list (option pyval))
    (codes : gset pyval) : Prop :=
  ∃ members,
    members ≡ₚ elements codes
    ∧ column = (Some <$> members)
               ++ replicate (length column - size codes)%nat None.

(** A decoded character is a Unicode scalar value: in range, and no
    surrogate. *)
Definition scalar_value (c : N) : Prop :=
  c < 0x110000 ∧ ¬ (0xD800 ≤ c ≤ 0xDFFF).

(** The characters of [text] from [i] up to [j] all satisfy [p]. *)
Definition run_of (p : N → bool) (text : list N) (i j : nat) : Prop :=
  (i ≤ j)%nat ∧ ∀ k, (i ≤ k < j)%nat → ∃ c, text !! k = Some c ∧ p c = true.

(** Matches listed in the order of the text, none starting before the one
    before it ends. *)
Definition in_text_order (ms : list (nat * mstate)) : Prop :=
  ∀ i j m1 m2, (i < j)%nat → ms !! i = Some m1 → ms !! j = Some m2 →
    (pos m1.2 ≤ m2.1)%nat.

(** ** Sample platform and inputs, for the examples *)

(** A character database that knows no digit, space or letter outside
    ASCII. *)
Definition ascii_only : N → bool := λ _, false.

(** A word-processor reader that rejects every file. *)
Definition no_docx : list Byte.byte → exn + list (list N) :=
  λ _, inl (LibraryError "PackageNotFoundError").

Fixpoint split_on (sep : N) (piece s : str) : list str :=
  match s with
  | [] => [piece]
  | c :: s' =>
      if c =? sep then piece :: split_on sep [] s'
      else split_on sep (piece ++ [c]) s'
  end.

Definition text_cell (s : str) : cell :=
  match s with [] => CNaN | _ => CStr s end.

(** A small reader of comma-separated text: the first line is the header,
    blank lines are skipped, every cell is text and an empty cell is
    missing. *)
Definition csv_reader (bs : list Byte.byte) : exn + DataFrame :=
  match decode bs with
  | inl e => inl e
  | inr s =>
      match split_on 44 [] <$> List.filter (λ l, negb (bool_decide (l = [])))
                                 (split_on 10 [] s) with
      | [] => inl (LibraryError "EmptyDataError")
      | header :: rows =>
          inr {| df_columns :=
                   imap (λ j title,
                           (title, (λ row, text_cell (row !!! j)) <$> rows))
                        header |}
      end
  end.

Definition bytes_of (s : string) : list Byte.byte :=
  Ascii.byte_of_ascii <$> String.list_ascii_of_string s.

(** The bytes of a text file made of the given lines. *)
Definition lines_of (lines : list string) : list Byte.byte :=
  l ← lines; bytes_of l ++ [Byte.x0a].

Definition codes_csv : UploadedFile :=
  {| name := py "codes.csv";
     content := lines_of ["Code"; "A-1"; "A-2"; "A-1"]%string |}.

Definition header_only_csv : UploadedFile :=
  {| name := py "empty.csv"; content := lines_of ["Code"%string] |}.


Definition notes_txt : UploadedFile :=
  {| name := py "notes.txt";
     content := bytes_of "see INT-42 and INT-42 again, also INT-7" |}.

Definition notes_pdf : UploadedFile :=
  {| name := py "notes.pdf";
     content := bytes_of "see INT-42 and INT-42 again, also INT-7" |}.

(** A spreadsheet reader that finds an empty first worksheet: a table
    without any column. *)
Definition empty_sheet_reader (bs : list Byte.byte) : exn + DataFrame :=
  inr {| df_columns := [] |}.

Definition blank_csv : UploadedFile :=
  {| name := py "blank.csv"; content := [] |}.

Definition stock_csv : UploadedFile :=
  {| name := py "stock.csv";
     content := lines_of ["Id,Qty"; "A-1,3"; "A-2,4"; "A-1,5"]%string |}.

Definition shouting_csv : UploadedFile :=
  {| name := py "CODES.CSV";
     content := lines_of ["Code"; "A-1"]%string |}.

Definition bad_txt : UploadedFile :=
  {| name := py "bad.txt"; content := [Byte.xff] |}.

(** ** Showing the results (main.py, lines 71-97)

    What [main] puts on the page once [result_df] is built: the download
    button, then a heading and a table in each of three columns.  The
    workbook writer is library code and a parameter. *)

(** [result_df.to_excel(writer, index=False)] through [xlsxwriter],
    followed by [output.getvalue()]: the bytes of the workbook. *)
Variable to_excel : list (string * list (option pyval)) → exn + list Byte.byte.

Inductive element :=
  | DownloadButton (label : str) (data : list Byte.byte) (file_name : str)
  | Write (column : nat) (markdown : str)
  | Dataframe (column : nat) (frame : ResultFrame).

(** [df[[name, ...]]]: the named columns, in the order asked. *)
Fixpoint getitem_columns (names : list string) (df : ResultFrame)
  : exn + ResultFrame :=
  match names with
  | [] => inr []
  | n :: names =>
      match List.find (λ col : string * list (option pyval),
                         String.eqb col.1 n) df with
      | None => inl (LibraryError "KeyError")
      | Some col => cols <- getitem_columns names df; inr (col :: cols)
      end
  end.

Definition nrows (df : ResultFrame) : nat :=
  match df with [] => 0%nat | (_, col) :: _ => length col end.

(** [df.notna().all(axis=1)]: the rows without any blank cell. *)
Definition notna_row (df : ResultFrame) (i : nat) : bool :=
  forallb (λ col : string * list (option pyval),
             match col.2 !! i with Some (Some _) => true | _ => false end) df.

Definition notna_mask (df : ResultFrame) : list bool :=
  notna_row df <$> seq 0 (nrows df).

(** [column[mask]] *)
Fixpoint keep_rows {A} (mask : list bool) (column : list A) : list A :=
  match mask, column with
  | keep :: mask, x :: column =>
      if keep then x :: keep_rows mask column else keep_rows mask column
  | _, _ => []
  end.

(** [df.dropna()] *)
Definition dropna (df : ResultFrame) : ResultFrame :=
  (λ col, (col.1, keep_rows (notna_mask df) col.2)) <$> df.

(** Python statements run in order until one raises: what reached the page,
    and the exception if any. *)
Fixpoint emit_all (steps : list (exn + list element))
  : list element * option exn :=
  match steps with
  | [] => ([], None)
  | inl e :: _ => ([], Some e)
  | inr shown :: steps =>
      let '(page, raised) := emit_all steps in (shown ++ page, raised)
  end.

(** One of the three panels: [st.write(heading)] and
    [st.dataframe(result_df[[title]].dropna())] inside column [k]. *)
Definition panel (k : nat) (heading : string) (title : string)
    (result_df : ResultFrame) : list (exn + list element) :=
  [ inr [Write k (py heading)];
    (selected <- getitem_columns [title] result_df;
     inr [Dataframe k (dropna selected)]) ].

(** main.py, lines 71-97 *)
Definition show_results (result_df : ResultFrame)
  : list element * option exn :=
  emit_all
    ((processed_data <- to_excel result_df;
      inr [DownloadButton (128229 :: py " Download Results") processed_data
             (py "comparison_result.xlsx")])
     :: panel 0 "### Matching Codes" "Matching codes" result_df
     ++ panel 1 "### Codes Only in Excel/CSV" "Codes only in Excel/CSV"
          result_df
     ++ panel 2 "### Codes Only in Word/TXT" "Codes only in Word/TXT"
          result_df).

(** A stand-in for the workbook writer, for the examples: it writes the
    column titles only. *)
Definition titles_workbook (df : ResultFrame) : exn + list Byte.byte :=
  inr (col ← df; bytes_of col.1).

(** * Properties *)

Set Default Proof Using "Type".

(** One step of a program in [App]: a library call whose result is known. *)
Ltac app_step H := unfold mbind, app_mbind, app_bind; rewrite H; done.

(** ** The comparator *)

(** C1: the comparator returns (L ∩ R, L − R, R − L); the three sets are
    pairwise disjoint, and matched ∪ left-only = L, matched ∪ right-only
    = R. *)
Theorem compare_codes_partition (L R : gset pyval) :
  let '(M, LO, RO) := compare_codes L R in
  M = L ∩ R ∧ LO = L ∖ R ∧ RO = R ∖ L
  ∧ M ## LO ∧ M ## RO ∧ LO ## RO
  ∧ M ∪ LO = L ∧ M ∪ RO = R.
Proof.
  unfold compare_codes.
  split; [done|]. split; [done|]. split; [done|].
  split; [apply elem_of_disjoint; intros x; set_unfold; clear -x; tauto|].
  split; [apply elem_of_disjoint; intros x; set_unfold; clear -x; tauto|].
  split; [apply elem_of_disjoint; intros x; set_unfold; clear -x; tauto|].
  split; apply set_eq; intros x; set_unfold.
  - destruct (decide (x ∈ R)) as [Hx | Hx]; clear -Hx; tauto.
  - destruct (decide (x ∈ L)) as [Hx | Hx]; clear -Hx; tauto.
Qed.

(** Allocation on the heap: old objects are kept, the new one is there. *)
Lemma alloc_fresh (s : gset pyval) (h : gmap nat (gset pyval)) :
  h !! (alloc s h).1 = None.
Proof.
  unfold alloc, fresh_ref; simpl. apply not_elem_of_dom. apply is_fresh.
Qed.

Lemma alloc_lookup_old s (h : gmap nat (gset pyval)) k v :
  h !! k = Some v → (alloc s h).2 !! k = Some v.
Proof.
  intros Hk. unfold alloc; simpl. rewrite lookup_insert_ne; [done|].
  intros Heq. pose proof (alloc_fresh s h) as Hf. unfold alloc in Hf.
  simpl in Hf. congruence.
Qed.

Lemma alloc_lookup_new s (h : gmap nat (gset pyval)) :
  (alloc s h).2 !! (alloc s h).1 = Some s.
Proof. unfold alloc; simpl. apply lookup_insert_eq. Qed.

(** A call on the heap returns three new objects that hold what the pure
    comparator computes, and keeps every object that existed before. *)
Lemma compare_codes_heap_spec (h : gmap nat (gset pyval)) l r L R :
  h !! l = Some L → h !! r = Some R →
  ∃ t h', compare_codes_heap l r h = Some (t, h')
          ∧ deref3 h' t = Some (compare_codes L R)
          ∧ (∀ k v, h !! k = Some v → h' !! k = Some v).
Proof.
  intros Hl Hr. unfold compare_codes_heap. rewrite Hl, Hr. cbn -[alloc].
  destruct (alloc (L ∩ R) h) as [a h1] eqn:E1.
  assert (H1 : ∀ k v, h !! k = Some v → h1 !! k = Some v).
  { intros k v Hk. pose proof (alloc_lookup_old (L ∩ R) h k v Hk) as Ho.
    by rewrite E1 in Ho. }
  assert (Ha : h1 !! a = Some (L ∩ R)).
  { pose proof (alloc_lookup_new (L ∩ R) h) as Hn. by rewrite E1 in Hn. }
  rewrite (H1 _ _ Hl), (H1 _ _ Hr). cbn -[alloc].
  destruct (alloc (L ∖ R) h1) as [b h2] eqn:E2.
  assert (H2 : ∀ k v, h1 !! k = Some v → h2 !! k = Some v).
  { intros k v Hk. pose proof (alloc_lookup_old (L ∖ R) h1 k v Hk) as Ho.
    by rewrite E2 in Ho. }
  assert (Hb : h2 !! b = Some (L ∖ R)).
  { pose proof (alloc_lookup_new (L ∖ R) h1) as Hn. by rewrite E2 in Hn. }
  rewrite (H2 _ _ (H1 _ _ Hl)), (H2 _ _ (H1 _ _ Hr)). cbn -[alloc].
  destruct (alloc (R ∖ L) h2) as [c h3] eqn:E3.
  assert (H3 : ∀ k v, h2 !! k = Some v → h3 !! k = Some v).
  { intros k v Hk. pose proof (alloc_lookup_old (R ∖ L) h2 k v Hk) as Ho.
    by rewrite E3 in Ho. }
  assert (Hc : h3 !! c = Some (R ∖ L)).
  { pose proof (alloc_lookup_new (R ∖ L) h2) as Hn. by rewrite E3 in Hn. }
  exists (a, b, c), h3. split; [done|]. split.
  - unfold deref3. rewrite (H3 _ _ (H2 _ _ Ha)), (H3 _ _ Hb), Hc. done.
  - intros k v Hk. eauto.
Qed.

Lemma deref3_mono (h h' : gmap nat (gset pyval)) t v :
  (∀ k x, h !! k = Some x → h' !! k = Some x) →
  deref3 h t = Some v → deref3 h' t = Some v.
Proof.
  intros Hsub. destruct t as [[a b] c]. unfold deref3.
  destruct (h !! a) as [x|] eqn:Ea; [|done].
  destruct (h !! b) as [y|] eqn:Eb; [|done].
  destruct (h !! c) as [z|] eqn:Ec; [|done].
  simpl. intros Hv.
  rewrite (Hsub _ _ Ea), (Hsub _ _ Eb), (Hsub _ _ Ec). done.
Qed.

(** C7: the comparator returns for every pair of sets, whatever the heap
    and even when both operands are the same object; on the empty
    operands, comparator(∅, ∅) = (∅, ∅, ∅) and comparator(L, ∅) =
    (∅, L, ∅). *)
Theorem compare_codes_total :
  (∀ (h : gmap nat (gset pyval)) l r L R,
     h !! l = Some L → h !! r = Some R →
     is_Some (compare_codes_heap l r h))
  ∧ compare_codes ∅ ∅ = (∅, ∅, ∅)
  ∧ (∀ L, compare_codes L ∅ = (∅, L, ∅)).
Proof.
  split; [|split].
  - intros h l r L R Hl Hr.
    destruct (compare_codes_heap_spec h l r L R Hl Hr) as (t & h' & -> & _).
    by eexists.
  - unfold compare_codes.
    by rewrite intersection_empty_r_L, difference_diag_L.
  - intros L. unfold compare_codes.
    by rewrite intersection_empty_r_L, difference_empty_L,
      difference_disjoint_L by apply disjoint_empty_l.
Qed.

(** C8: two successive calls on the same operands return triples with the
    same contents, which are those of the pure comparator; the second call
    leaves the result of the first intact; and the triple depends on the
    members of the operands only, not on the order in which they were put
    in. *)
Theorem compare_codes_idempotent (h : gmap nat (gset pyval)) l r L R :
  h !! l = Some L → h !! r = Some R →
  (∃ t1 h1 t2 h2,
     compare_codes_heap l r h = Some (t1, h1)
     ∧ compare_codes_heap l r h1 = Some (t2, h2)
     ∧ deref3 h1 t1 = Some (compare_codes L R)
     ∧ deref3 h2 t2 = Some (compare_codes L R)
     ∧ deref3 h2 t1 = Some (compare_codes L R))
  ∧ (∀ ls ls' rs rs' : list pyval,
       ls ≡ₚ ls' → rs ≡ₚ rs' →
       compare_codes (list_to_set ls) (list_to_set rs)
       = compare_codes (list_to_set ls') (list_to_set rs')).
Proof.
  intros Hl Hr. split.
  - destruct (compare_codes_heap_spec h l r L R Hl Hr)
      as (t1 & h1 & E1 & D1 & K1).
    destruct (compare_codes_heap_spec h1 l r L R (K1 _ _ Hl) (K1 _ _ Hr))
      as (t2 & h2 & E2 & D2 & K2).
    exists t1, h1, t2, h2. repeat split; try done.
    by apply (deref3_mono h1 h2).
  - intros ls ls' rs rs' Hls Hrs.
    assert (Els : list_to_set ls =@{gset pyval} list_to_set ls').
    { apply set_eq. intros x. rewrite !elem_of_list_to_set. by rewrite Hls. }
    assert (Ers : list_to_set rs =@{gset pyval} list_to_set rs').
    { apply set_eq. intros x. rewrite !elem_of_list_to_set. by rewrite Hrs. }
    by rewrite Els, Ers.
Qed.

(** ** The tabular extractor *)

Lemma first_column_codes_run (df : DataFrame) header series rest ui :
  df_columns df = (header, series) :: rest →
  first_column_codes df ui
  = (Returned (list_to_set (PStr <$> astype_str series)), ui).
Proof.
  intros Hc. unfold first_column_codes, iloc_column. rewrite Hc. done.
Qed.

Lemma first_column_codes_no_column (df : DataFrame) ui :
  df_columns df = [] → first_column_codes df ui = (Raised IndexError, ui).
Proof.
  intros Hc. unfold first_column_codes, iloc_column. rewrite Hc. done.
Qed.

(** On a recognized input the extractor is the reader followed by the
    first-column projection, and nothing is written on the page. *)
Lemma extract_tabular_parsed (file : UploadedFile) (df : DataFrame) :
  parsed_as file df →
  run (extract_codes_from_excel_or_csv file) = first_column_codes df [].
Proof.
  unfold run, extract_codes_from_excel_or_csv.
  intros [[Hx Hr] | (Hx & Hc & Hr)].
  - rewrite Hx. app_step Hr.
  - rewrite Hx, Hc. app_step Hr.
Qed.

(** X5: a recognized table without any column makes the extractor raise
    IndexError, with nothing written on the page. *)
Lemma extract_tabular_no_column (file : UploadedFile) (df : DataFrame) :
  parsed_as file df → df_columns df = [] →
  run (extract_codes_from_excel_or_csv file) = (Raised IndexError, []).
Proof.
  intros Hp Hc. rewrite (extract_tabular_parsed file df Hp).
  by apply first_column_codes_no_column.
Qed.


(** C6: on a recognized tabular input with a header row and no data row,
    the extractor returns the empty set and raises nothing. *)
Theorem extract_tabular_no_rows (file : UploadedFile) (df : DataFrame)
    header rest :
  parsed_as file df →
  df_columns df = (header, []) :: rest →
  run (extract_codes_from_excel_or_csv file) = (Returned ∅, []).
Proof.
  intros Hp Hc. rewrite (extract_tabular_parsed file df Hp).
  by rewrite (first_column_codes_run df header [] rest).
Qed.


(** ** Unrecognized extensions *)

(** C4, as the program has it: a name with an unrecognized extension makes
    either extractor write "Unsupported file format!" on the page and
    return the empty set; nothing is raised, no reader is called and the
    pattern is not looked at. *)
Theorem extract_unsupported_format (file : UploadedFile) (pattern : str) :
  (endswith (name file) (py ".xlsx") = false →
   endswith (name file) (py ".csv") = false →
   run (extract_codes_from_excel_or_csv file)
   = (Returned ∅, [StError (py "Unsupported file format!")]))
  ∧ (endswith (name file) (py ".docx") = false →
     endswith (name file) (py ".txt") = false →
     run (extract_codes_from_text_or_word file pattern)
     = (Returned ∅, [StError (py "Unsupported file format!")])).
Proof.
  split; intros H1 H2.
  - unfold run, extract_codes_from_excel_or_csv. by rewrite H1, H2.
  - unfold run, extract_codes_from_text_or_word. by rewrite H1, H2.
Qed.

(** ** The pattern parser *)

Lemma fueled_bind {A B} (m : exn + A) (f : A → exn + B) :
  fueled m → (∀ a, m = inr a → fueled (f a)) → fueled (try_bind m f).
Proof.
  destruct m as [e | a]; intros Hm Hf; [|by apply Hf].
  intros [= ->]. by apply Hm.
Qed.

Lemma fetch_size s src : fetch s = inr src → (src_size src ≤ length s)%nat.
Proof.
  unfold fetch, src_size. destruct s as [|c s']; [by intros [= <-]|].
  destruct (c =? ord "\").
  - destruct s' as [|d s'']; [done|]. intros [= <-]. simpl. lia.
  - intros [= <-]. simpl. lia.
Qed.

Lemma fetch_fueled s : fueled (fetch s).
Proof.
  unfold fetch, fueled. destruct s as [|c s']; [done|].
  destruct (c =? ord "\"); [|done]. by destruct s'.
Qed.

Lemma sourceget_size src t src' :
  sourceget src = inr (t, src') →
  t = src_next src ∧ (src_size src' ≤ length (src_rest src))%nat.
Proof.
  unfold sourceget. destruct (fetch (src_rest src)) as [e | s1] eqn:E; [done|].
  simpl. intros [= <- <-]. split; [done|]. by apply fetch_size.
Qed.

Lemma sourceget_fueled src : fueled (sourceget src).
Proof.
  unfold sourceget. apply fueled_bind; [apply fetch_fueled | done].
Qed.

Lemma sourcematch_size c src b src' :
  sourcematch c src = inr (b, src') →
  (src_size src' ≤ src_size src)%nat
  ∧ (b = true → (src_size src' < src_size src)%nat).
Proof.
  unfold sourcematch. case_bool_decide as Hn.
  - destruct (fetch (src_rest src)) as [e | s1] eqn:E; [done|].
    simpl. intros [= <- <-]. apply fetch_size in E.
    unfold src_size at 2 4. rewrite Hn. lia.
  - intros [= <- <-]. split; [lia | done].
Qed.

Lemma sourcematch_fueled c src : fueled (sourcematch c src).
Proof.
  unfold sourcematch. case_bool_decide; [|done].
  apply fueled_bind; [apply fetch_fueled | done].
Qed.

Lemma sourceget_lt src tok src' :
  sourceget src = inr (Some tok, src') → (src_size src' < src_size src)%nat.
Proof.
  intros [Ht Hs]%sourceget_size. unfold src_size at 2. rewrite <- Ht. lia.
Qed.

Lemma sourceget_le src t src' :
  sourceget src = inr (t, src') → (src_size src' ≤ src_size src)%nat.
Proof. intros [Ht Hs]%sourceget_size. unfold src_size at 2. lia. Qed.

Lemma set_member_fueled tok : fueled (set_member tok).
Proof.
  unfold set_member, fueled.
  destruct tok as [|a [|b [|? ?]]]; try done.
  unfold class_escape. destruct (ESCAPES b); [done|].
  destruct (CATEGORIES b) as [[]|]; repeat (case_match; try done).
Qed.

Lemma escape_fueled c : fueled (escape c).
Proof.
  unfold escape, fueled. repeat (case_match; try done).
Qed.

Lemma repeat_target_fueled items : fueled (repeat_target items).
Proof. unfold repeat_target, fueled. repeat (case_match; try done). Qed.

Lemma sourceget_next src t src' tok :
  src_next src = Some tok → sourceget src = inr (t, src') →
  (src_size src' < src_size src)%nat.
Proof.
  intros Hn [Ht Hs]%sourceget_size. unfold src_size at 2. rewrite Hn. lia.
Qed.

Ltac inv_step H :=
  match type of H with
  | try_bind ?m _ = inr _ =>
      let E := fresh "E" in
      destruct m as [?|?] eqn:E; simpl in H; [discriminate H|]
  | inl _ = inr _ => discriminate H
  | match ?x with _ => _ end = inr _ =>
      first [ is_var x; destruct x
            | let E := fresh "E" in destruct x eqn:E ]
  end.

Ltac sizes :=
  repeat match goal with
  | Hn : src_next ?s = Some _, E : sourceget ?s = inr _ |- _ =>
      apply (sourceget_next _ _ _ _ Hn) in E
  | E : sourceget _ = inr (Some _, _) |- _ => apply sourceget_lt in E
  | E : sourceget _ = inr _ |- _ => apply sourceget_le in E
  | E : sourcematch _ _ = inr (true, _) |- _ =>
      apply sourcematch_size in E as [_ E]; specialize (E eq_refl)
  | E : sourcematch _ _ = inr _ |- _ => apply sourcematch_size in E as [E _]
  end.

Lemma parse_set_size fuel :
  ∀ set src set' src',
    parse_set fuel set src = inr (set', src') →
    (src_size src' ≤ src_size src)%nat.
Proof.
  induction fuel as [|fuel IH]; intros set src set' src' H; [done|].
  simpl in H. repeat inv_step H;
    try (injection H as <- <-); try (apply IH in H); sizes; lia.
Qed.

Lemma read_digits_size fuel :
  ∀ acc src acc' src',
    read_digits fuel acc src = inr (acc', src') →
    (src_size src' ≤ src_size src)%nat.
Proof.
  induction fuel as [|fuel IH]; intros acc src acc' src' H; [done|].
  simpl in H. repeat inv_step H;
    try (injection H as <- <-); try (apply IH in H); sizes; lia.
Qed.

Lemma repeat_bounds_size fuel op src b src' :
  repeat_bounds fuel op src = inr (b, src') →
  (src_size src' ≤ src_size src)%nat.
Proof.
  unfold repeat_bounds. intros H.
  repeat inv_step H; try (injection H as <- <-); try lia;
    repeat match goal with
    | E : (if ?b then _ else _) = inr _ |- _ => destruct b
    | E : read_digits _ _ _ = inr _ |- _ => apply read_digits_size in E
    | E : inr _ = inr _ |- _ => simplify_eq
    end; sizes; lia.
Qed.

Lemma parse_size fuel :
  (∀ items src g its src' g',
     parse_items fuel items src g = inr (its, src', g') →
     (src_size src' ≤ src_size src)%nat)
  ∧ (∀ src g p src' g',
       parse_sub fuel src g = inr (p, src', g') →
       (src_size src' ≤ src_size src)%nat).
Proof.
  induction fuel as [|fuel [IHi IHs]]; [by split|]. split.
  - intros items src g its src' g' H. simpl in H.
    repeat inv_step H.
    all: try (injection H as <- <- <-).
    all: try (apply IHi in H).
    all: repeat match goal with
         | E : (if ?b then _ else _) = inr _ |- _ => destruct b
         | E : try_bind _ _ = inr _ |- _ => inv_step E
         | E : match _ with _ => _ end = inr _ |- _ => inv_step E
         | E : inl _ = inr _ |- _ => discriminate E
         | E : inr _ = inr _ |- _ => simplify_eq
         | E : parse_set _ _ _ = inr _ |- _ => apply parse_set_size in E
         | E : repeat_bounds _ _ _ = inr _ |- _ => apply repeat_bounds_size in E
         | E : parse_sub _ _ _ = inr _ |- _ => apply IHs in E
         end.
    all: sizes; lia.
  - intros src g p src' g' H. simpl in H.
    repeat inv_step H.
    all: try (injection H as <- <- <-).
    all: repeat match goal with
         | E : parse_items _ _ _ _ = inr _ |- _ => apply IHi in E
         | E : parse_sub _ _ _ = inr _ |- _ => apply IHs in E
         end.
    all: sizes; lia.
Qed.

Ltac fuel_step :=
  match goal with
  | |- fueled (sourceget _) => apply sourceget_fueled
  | |- fueled (sourcematch _ _) => apply sourcematch_fueled
  | |- fueled (set_member _) => apply set_member_fueled
  | |- fueled (escape _) => apply escape_fueled
  | |- fueled (repeat_target _) => apply repeat_target_fueled
  | |- fueled (try_bind ?m _) =>
      apply fueled_bind;
      [| let a := fresh "a" in
         let E := fresh "E" in
         intros a E; cbn beta iota ]
  | |- fueled (match ?x with _ => _ end) =>
      first [ is_var x; destruct x
            | let E := fresh "E" in destruct x eqn:E ]
  | |- fueled (inr _) => unfold fueled; discriminate
  | |- fueled (inl _) => unfold fueled; discriminate
  end.

Lemma parse_set_fueled fuel :
  ∀ set src, (src_size src < fuel)%nat → fueled (parse_set fuel set src).
Proof.
  induction fuel as [|fuel IH]; intros set src Hf; [lia|].
  simpl. repeat fuel_step.
  all: apply IH; sizes; lia.
Qed.

Lemma read_digits_fueled fuel :
  ∀ acc src, (src_size src < fuel)%nat → fueled (read_digits fuel acc src).
Proof.
  induction fuel as [|fuel IH]; intros acc src Hf; [lia|].
  simpl. repeat fuel_step.
  all: apply IH; sizes; lia.
Qed.

Lemma repeat_bounds_fueled fuel op src :
  (src_size src < fuel)%nat → fueled (repeat_bounds fuel op src).
Proof.
  intros Hf. unfold repeat_bounds. repeat fuel_step.
  all: repeat match goal with
       | E : read_digits _ _ _ = inr _ |- _ => apply read_digits_size in E
       end; sizes.
  all: apply read_digits_fueled; lia.
Qed.

Lemma parse_fueled fuel :
  (∀ items src g,
     (2 * src_size src + 1 ≤ fuel)%nat →
     fueled (parse_items fuel items src g))
  ∧ (∀ src g,
       (2 * src_size src + 2 ≤ fuel)%nat → fueled (parse_sub fuel src g)).
Proof.
  induction fuel as [|fuel [IHi IHs]]; [split; intros; lia|]. split.
  - intros items src g Hf. simpl. repeat fuel_step.
    all: try (apply IHi).
    all: try (apply IHs).
    all: try (apply parse_set_fueled).
    all: try (apply repeat_bounds_fueled).
    all: repeat match goal with
         | E : (if ?b then _ else _) = inr _ |- _ => destruct b
         | E : try_bind _ _ = inr _ |- _ => inv_step E
         | E : match _ with _ => _ end = inr _ |- _ => inv_step E
         | E : inl _ = inr _ |- _ => discriminate E
         | E : inr _ = inr _ |- _ => simplify_eq
         | E : parse_set _ _ _ = inr _ |- _ => apply parse_set_size in E
         | E : repeat_bounds _ _ _ = inr _ |- _ => apply repeat_bounds_size in E
         | E : parse_sub _ _ _ = inr _ |- _ => apply parse_size in E
         end.
    all: sizes; lia.
  - intros src g Hf. simpl. repeat fuel_step.
    all: try (apply IHi).
    all: try (apply IHs).
    all: repeat match goal with
         | E : parse_items _ _ _ _ = inr _ |- _ => apply parse_size in E
         end.
    all: sizes; lia.
Qed.

(** The bound given to the parser is never what stops it: a pattern is
    parsed, rejected, or found to be outside the model. *)
Lemma parse_never_out_of_fuel pattern :
  parse pattern ≠ inl (OutsideModel "fuel").
Proof.
  unfold parse. apply fueled_bind; [apply fetch_fueled|].
  intros src Hsrc%fetch_size. apply fueled_bind.
  - apply parse_fueled. lia.
  - intros [[p src'] g] _. by destruct (src_next src').
Qed.

(** ** The matching engine *)

Local Abbreviation exec' := (exec uni_isdecimal uni_isspace uni_isalnum).
Local Abbreviation search' := (search uni_isdecimal uni_isspace uni_isalnum).
Local Abbreviation scan' := (scan uni_isdecimal uni_isspace uni_isalnum).
Local Abbreviation finditer' :=
  (finditer uni_isdecimal uni_isspace uni_isalnum).

Lemma bind_ext_in {A B} (f g : A → list B) (l : list A) :
  (∀ x, x ∈ l → f x = g x) → l ≫= f = l ≫= g.
Proof.
  induction l as [|x l IH]; intros Hfg; [done|].
  rewrite !bind_cons, (Hfg x) by left. f_equal. apply IH.
  intros y Hy. apply Hfg. by right.
Qed.

Lemma forward_bind len (f g : mstate → list mstate) :
  forward len f → forward len g → forward len (λ st, st' ← f st; g st').
Proof.
  intros Hf Hg st st' (mid & Hg' & Hf')%list_elem_of_bind.
  destruct (Hf _ _ Hf') as [H1 H2], (Hg _ _ Hg') as [H3 H4].
  split; [lia | auto].
Qed.

Lemma one_char_forward text p :
  forward (length text) (one_char text p).
Proof.
  intros st st'. unfold one_char.
  destruct (text !! pos st) as [c|] eqn:E; [|by inv 1].
  apply lookup_lt_Some in E.
  destruct (p c); [|by inv 1].
  intros ->%list_elem_of_singleton. simpl. lia.
Qed.

Lemma rep_min_forward len body n :
  forward len body → forward len (rep_min body n).
Proof.
  intros Hb. induction n as [|n IH]; simpl.
  - intros st st' ->%list_elem_of_singleton. lia.
  - by apply (forward_bind len body (rep_min body n)).
Qed.

Lemma rep_more_forward len body greedy fuel left last_ptr :
  forward len body → forward len (rep_more body greedy fuel left last_ptr).
Proof.
  intros Hb. revert left last_ptr.
  induction fuel as [|fuel IH]; intros left last_ptr st st'; simpl.
  - intros ->%list_elem_of_singleton. lia.
  - assert (Hmore : ∀ x,
      x ∈ (if may_repeat left
              && negb (bool_decide (last_ptr = Some (pos st)))
           then y ← body st;
                rep_more body greedy fuel (N.pred <$> left)
                  (Some (pos st)) y
           else []) →
      (pos st ≤ pos x)%nat ∧ ((pos st ≤ len)%nat → (pos x ≤ len)%nat)).
    { intros x. destruct (_ && _); [|by inv 1].
      intros (mid & Hx & Hmid)%list_elem_of_bind.
      destruct (Hb _ _ Hmid) as [H1 H2], (IH _ _ _ _ Hx) as [H3 H4].
      split; [lia | auto]. }
    destruct greedy.
    + intros [Hx | ->%list_elem_of_singleton]%elem_of_app; [auto | lia].
    + intros [-> | Hx]%elem_of_cons; [lia | auto].
Qed.

(** Every way a pattern matches ends at or after its start, inside the
    text. *)
Lemma exec_forward text r : forward (length text) (exec' text r).
Proof.
  induction r as [| c | c | | negate items | a | r1 IH1 r2 IH2
                  | r1 IH1 r2 IH2 | greedy lo hi r IH | group r IH];
    simpl.
  - intros st st' ->%list_elem_of_singleton. lia.
  - apply one_char_forward.
  - apply one_char_forward.
  - apply one_char_forward.
  - apply one_char_forward.
  - intros st st'. destruct (at_test _ _ _ _); [|by inv 1].
    intros ->%list_elem_of_singleton. lia.
  - by apply (forward_bind _ (exec' text r1) (exec' text r2)).
  - intros st st' [H | H]%elem_of_app; [by apply IH1 | by apply IH2].
  - apply (forward_bind _ (rep_min (exec' text r) (N.to_nat lo))
             (rep_more (exec' text r) greedy (S (length text))
                ((λ h, h - lo) <$> hi) None)).
    + by apply rep_min_forward.
    + by apply rep_more_forward.
  - destruct group as [g|]; [|done].
    intros st st' (mid & -> & Hmid)%list_elem_of_fmap. simpl.
    by apply IH.
Qed.

Lemma rep_more_S body greedy fuel left last_ptr st :
  rep_more body greedy (S fuel) left last_ptr st
  = let more :=
      if may_repeat left && negb (bool_decide (last_ptr = Some (pos st)))
      then st' ← body st;
           rep_more body greedy fuel (N.pred <$> left) (Some (pos st)) st'
      else [] in
    if greedy then more ++ [st] else st :: more.
Proof. done. Qed.

(** The bound on the number of repetitions is never what stops them: any
    larger bound gives the same matches. *)
Lemma rep_more_fuel len body greedy :
  forward len body →
  ∀ fuel left last_ptr st,
    (pos st ≤ len)%nat →
    last_ptr = Some (pos st) ∨ (len - pos st < fuel)%nat →
    rep_more body greedy (S fuel) left last_ptr st
    = rep_more body greedy fuel left last_ptr st.
Proof.
  intros Hb. induction fuel as [|fuel IH]; intros left last_ptr st Hlen Hf.
  - destruct Hf as [-> | Hf]; [|lia]. simpl.
    rewrite bool_decide_eq_true_2, andb_false_r by done.
    by destruct greedy.
  - rewrite (rep_more_S _ _ (S fuel)), (rep_more_S _ _ fuel). cbv zeta.
    destruct (may_repeat left && negb (bool_decide (last_ptr = Some (pos st))))
      eqn:Ec; [|done].
    assert (Hne : last_ptr ≠ Some (pos st)).
    { apply andb_true_iff in Ec as [_ Hn]. apply negb_true_iff in Hn.
      by apply bool_decide_eq_false in Hn. }
    destruct Hf as [? | Hf]; [done|].
    rewrite (bind_ext_in
      (rep_more body greedy (S fuel) (N.pred <$> left) (Some (pos st)))
      (rep_more body greedy fuel (N.pred <$> left) (Some (pos st)))); [done|].
    intros st' Hst'. destruct (Hb _ _ Hst') as [H1 H2].
    apply IH; [auto|].
    destruct (decide (pos st = pos st')) as [-> | ?]; [by left|].
    right. specialize (H2 Hlen). lia.
Qed.

Lemma match_at_sound text r must_advance i st :
  match_at uni_isdecimal uni_isspace uni_isalnum text r must_advance i
  = Some st →
  st ∈ exec' text r (initial i)
  ∧ (must_advance = true → pos st ≠ i).
Proof.
  unfold match_at. intros [Hin Hp]%List.find_some. split.
  - by apply list_elem_of_In.
  - intros ->. simpl in Hp. apply negb_true_iff in Hp.
    by apply bool_decide_eq_false in Hp.
Qed.

Lemma search_in_sound text r candidates s st :
  search_in uni_isdecimal uni_isspace uni_isalnum text r candidates
  = Some (s, st) →
  s ∈ candidates
  ∧ match_at uni_isdecimal uni_isspace uni_isalnum text r false s = Some st.
Proof.
  induction candidates as [|i rest IH]; simpl; [done|].
  destruct (match_at _ _ _ _ _ _ i) as [st0|] eqn:E.
  - intros [= <- <-]. split; [by left | done].
  - intros [Hin Hm]%IH. split; [by right | done].
Qed.

(** A successful search reports a way the pattern matches at a position
    from [start] on, inside the text; after an empty match the same
    position only counts with a match that is not empty. *)
Lemma search_sound text r must_advance start s st :
  (start ≤ length text)%nat →
  search' text r must_advance start = Some (s, st) →
  (start ≤ s ≤ pos st)%nat ∧ (pos st ≤ length text)%nat
  ∧ st ∈ exec' text r (initial s)
  ∧ (must_advance = true → s = start → pos st ≠ s).
Proof.
  intros Hlen. unfold search.
  destruct (match_at _ _ _ _ _ must_advance start) as [st0|] eqn:E.
  - intros [= <- <-]. apply match_at_sound in E as [Hin Hadv].
    destruct (exec_forward text r _ _ Hin) as [H1 H2]. simpl in *.
    repeat split; auto with lia.
  - intros [Hin Hm]%search_in_sound. apply elem_of_seq in Hin.
    apply match_at_sound in Hm as [Hex _].
    destruct (exec_forward text r _ _ Hex) as [H1 H2]. simpl in *.
    repeat split; auto with lia.
Qed.

Lemma search_in_seq text r n :
  ∀ a, match search_in uni_isdecimal uni_isspace uni_isalnum text r (seq a n)
       with
       | Some (s, _) =>
           ∀ i, (a ≤ i < s)%nat →
             match_at uni_isdecimal uni_isspace uni_isalnum text r false i
             = None
       | None =>
           ∀ i, (a ≤ i < a + n)%nat →
             match_at uni_isdecimal uni_isspace uni_isalnum text r false i
             = None
       end.
Proof.
  induction n as [|n IH]; intros a; simpl; [intros i; lia|].
  destruct (match_at _ _ _ _ _ _ a) as [st|] eqn:E; [intros i; lia|].
  specialize (IH (S a)).
  destruct (search_in _ _ _ _ _ (seq (S a) n)) as [[s st]|].
  - intros i Hi. destruct (decide (i = a)) as [-> | ?]; [done|].
    apply IH. lia.
  - intros i Hi. destruct (decide (i = a)) as [-> | ?]; [done|].
    apply IH. lia.
Qed.

(** The search is leftmost: no earlier position has a match; and when it
    fails, no position of the text has one. *)
Lemma search_leftmost text r must_advance start :
  match search' text r must_advance start with
  | Some (s, _) =>
      ∀ i, (start ≤ i < s)%nat →
        match_at uni_isdecimal uni_isspace uni_isalnum text r
          (must_advance && bool_decide (i = start)) i = None
  | None =>
      ∀ i, (start ≤ i ≤ length text)%nat →
        match_at uni_isdecimal uni_isspace uni_isalnum text r
          (must_advance && bool_decide (i = start)) i = None
  end.
Proof.
  unfold search.
  destruct (match_at _ _ _ _ _ must_advance start) as [st|] eqn:E;
    [intros i; lia|].
  pose proof (search_in_seq text r (length text - start) (S start)) as Hseq.
  destruct (search_in _ _ _ _ _ _) as [[s st]|].
  - intros i Hi. destruct (decide (i = start)) as [-> | Hne].
    + by rewrite bool_decide_eq_true_2, andb_true_r.
    + rewrite bool_decide_eq_false_2, andb_false_r by done. apply Hseq. lia.
  - intros i Hi. destruct (decide (i = start)) as [-> | Hne].
    + by rewrite bool_decide_eq_true_2, andb_true_r.
    + rewrite bool_decide_eq_false_2, andb_false_r by done. apply Hseq. lia.
Qed.

Lemma scan_S text fuel r must_advance start :
  scan' text (S fuel) r must_advance start
  = if bool_decide (start ≤ length text)%nat then
      match search' text r must_advance start with
      | None => []
      | Some (s, st) =>
          (s, st) :: scan' text fuel r (bool_decide (pos st = s)) (pos st)
      end
    else [].
Proof. done. Qed.

(** The bound on the number of searches is never what ends the scan. *)
Lemma scan_fuel text r :
  ∀ fuel (must_advance : bool) start,
    (start ≤ length text)%nat →
    (2 * (length text - start) + (if must_advance then 0 else 1) < fuel)%nat →
    scan' text (S fuel) r must_advance start
    = scan' text fuel r must_advance start.
Proof.
  induction fuel as [|fuel IH]; intros must_advance start Hlen Hf; [lia|].
  rewrite (scan_S text (S fuel)), (scan_S text fuel).
  rewrite bool_decide_eq_true_2 by done.
  destruct (search' text r must_advance start) as [[s st]|] eqn:E; [|done].
  f_equal. apply search_sound in E as (Hs & He & _ & Hadv); [|done].
  apply IH; [done|]. case_bool_decide as Hempty.
  - destruct must_advance.
    + assert (s ≠ start) by (intros ->; by apply Hadv). lia.
    + lia.
  - destruct must_advance; lia.
Qed.

Lemma scan_fuel_enough text r fuel :
  (2 * length text + 3 ≤ fuel)%nat →
  scan' text fuel r false 0%nat = finditer' text r.
Proof.
  unfold finditer. induction 1 as [|fuel Hle IH]; [done|].
  rewrite <- IH. apply scan_fuel; lia.
Qed.

Lemma scan_spans text r fuel :
  ∀ must_advance start s st,
    (s, st) ∈ scan' text fuel r must_advance start →
    (start ≤ s ≤ pos st)%nat ∧ (pos st ≤ length text)%nat
    ∧ st ∈ exec' text r (initial s).
Proof.
  induction fuel as [|fuel IH]; intros must_advance start s st;
    [by inv 1|].
  rewrite scan_S. case_bool_decide as Hlen; [|by inv 1].
  destruct (search' text r must_advance start) as [[s0 st0]|] eqn:E;
    [|by inv 1].
  apply search_sound in E as (Hs & He & Hex & _); [|done].
  intros [[= -> ->] | Hin]%elem_of_cons; [done|].
  apply IH in Hin as (Hs' & He' & Hex'). repeat split; auto with lia.
Qed.

(** Every match reported by the global match is a way the pattern matches
    at its start, and spans a part of the text. *)
Lemma finditer_spans text r s st :
  (s, st) ∈ finditer' text r →
  (s ≤ pos st ≤ length text)%nat ∧ st ∈ exec' text r (initial s).
Proof.
  intros Hin. apply scan_spans in Hin as (Hs & He & Hex). auto with lia.
Qed.

(** ** The text extractor *)

(** On a recognized document the extractor is the pattern match over its
    text, and nothing is written on the page. *)
Lemma extract_text_document (file : UploadedFile) (text pattern : str) :
  document_text file text →
  run (extract_codes_from_text_or_word file pattern)
  = pattern_codes pattern text [].
Proof.
  unfold run, extract_codes_from_text_or_word.
  intros [(Hd & paragraphs & Hr & ->) | (Hd & Ht & Hr)].
  - rewrite Hd. app_step Hr.
  - rewrite Hd, Ht. app_step Hr.
Qed.

Lemma pattern_codes_parsed (pattern text : str) r groups ui :
  parse pattern = inr (r, groups) →
  pattern_codes pattern text ui
  = (Returned (list_to_set (findall_item text groups
                              <$> finditer' text r)), ui).
Proof.
  intros Hp. unfold pattern_codes, re_findall. by rewrite Hp.
Qed.





(** What comes before the pattern is looked at: text that is not UTF-8
    raises the decoding error whatever the pattern. *)
Lemma extract_text_undecodable (file : UploadedFile) (pattern : str) :
  endswith (name file) (py ".docx") = false →
  endswith (name file) (py ".txt") = true →
  decode (content file) = inl UnicodeDecodeError →
  run (extract_codes_from_text_or_word file pattern)
  = (Raised UnicodeDecodeError, []).
Proof.
  intros Hd Ht Hdec. unfold run, extract_codes_from_text_or_word.
  rewrite Hd, Ht. app_step Hdec.
Qed.

(** With one capturing group the extractor returns what the group
    captured, not the matched substrings. *)
Lemma extract_text_one_group (file : UploadedFile) (text pattern : str) r :
  document_text file text →
  parse pattern = inr (r, 1%nat) →
  run (extract_codes_from_text_or_word file pattern)
  = (Returned (list_to_set
       ((λ m, PStr (group_text text m 1)) <$> finditer' text r)), []).
Proof.
  intros Hdoc Hp.
  rewrite (extract_text_document file text pattern Hdoc).
  by rewrite (pattern_codes_parsed pattern text r 1 [] Hp).
Qed.

(** * Further properties of the program *)

(** ** The comparator *)

(** X1: exchanging the two inputs keeps the matched set and exchanges the
    two one-sided sets. *)
Theorem compare_codes_swap (L R : gset pyval) :
  let '(M, LO, RO) := compare_codes L R in
  compare_codes R L = (M, RO, LO).
Proof. unfold compare_codes. by rewrite (comm_L (∩) R L). Qed.

Lemma matched_union_left_only (L R : gset pyval) : (L ∩ R) ∪ (L ∖ R) = L.
Proof.
  apply set_eq. intros x. set_unfold.
  destruct (decide (x ∈ R)) as [Hx | Hx]; clear -Hx; tauto.
Qed.

Lemma matched_disjoint_left_only (L R : gset pyval) : (L ∩ R) ## (L ∖ R).
Proof. apply elem_of_disjoint. intros x. set_unfold. clear -x. tauto. Qed.

(** X2: the counts add up: matched and left-only codes are as many as the
    left input, matched and right-only codes as many as the right input. *)
Theorem compare_codes_sizes (L R : gset pyval) :
  let '(M, LO, RO) := compare_codes L R in
  (size M + size LO = size L)%nat ∧ (size M + size RO = size R)%nat.
Proof.
  unfold compare_codes. split.
  - rewrite <- (size_union _ _ (matched_disjoint_left_only L R)).
    by rewrite matched_union_left_only.
  - rewrite (comm_L (∩) L R).
    rewrite <- (size_union _ _ (matched_disjoint_left_only R L)).
    by rewrite matched_union_left_only.
Qed.

(** X3: the left-only set is empty exactly when every left code is a right
    code, the right-only set when every right code is a left code, and the
    matched set when the inputs share no code. *)
Theorem compare_codes_empty_parts (L R : gset pyval) :
  let '(M, LO, RO) := compare_codes L R in
  (LO = ∅ ↔ L ⊆ R) ∧ (RO = ∅ ↔ R ⊆ L) ∧ (M = ∅ ↔ L ## R).
Proof.
  unfold compare_codes. split; [|split].
  - split.
    + intros He x Hx. destruct (decide (x ∈ R)) as [|Hn]; [done|].
      assert (Hin : x ∈ L ∖ R) by (apply elem_of_difference; done).
      rewrite He in Hin. by apply not_elem_of_empty in Hin.
    + intros Hs. apply set_eq. intros x. rewrite elem_of_difference.
      split; [|by intros ?%not_elem_of_empty].
      intros [Hx Hn]. destruct Hn. by apply Hs.
  - split.
    + intros He x Hx. destruct (decide (x ∈ L)) as [|Hn]; [done|].
      assert (Hin : x ∈ R ∖ L) by (apply elem_of_difference; done).
      rewrite He in Hin. by apply not_elem_of_empty in Hin.
    + intros Hs. apply set_eq. intros x. rewrite elem_of_difference.
      split; [|by intros ?%not_elem_of_empty].
      intros [Hx Hn]. destruct Hn. by apply Hs.
  - split.
    + intros He. apply elem_of_disjoint. intros x HL HR.
      assert (Hin : x ∈ L ∩ R) by (apply elem_of_intersection; done).
      rewrite He in Hin. by apply not_elem_of_empty in Hin.
    + intros Hd. apply set_eq. intros x. rewrite elem_of_intersection.
      split; [|by intros ?%not_elem_of_empty].
      intros [HL HR]. destruct (elem_of_disjoint L R) as [Hd' _].
      destruct (Hd' Hd x HL HR).
Qed.

(** X19: a call leaves every object of the heap as it was, its two operands
    included, and returns three objects that did not exist before and are
    distinct from one another. *)
Theorem compare_codes_heap_fresh (h : gmap nat (gset pyval)) l r L R :
  h !! l = Some L → h !! r = Some R →
  ∃ a b c h',
    compare_codes_heap l r h = Some (a, b, c, h')
    ∧ h !! a = None ∧ h !! b = None ∧ h !! c = None
    ∧ a ≠ b ∧ a ≠ c ∧ b ≠ c
    ∧ ∀ k v, h !! k = Some v → h' !! k = Some v.
Proof.
  intros Hl Hr. unfold compare_codes_heap. rewrite Hl, Hr. cbn -[alloc].
  pose proof (alloc_fresh (L ∩ R) h) as Fa.
  pose proof (alloc_lookup_new (L ∩ R) h) as Na.
  pose proof (alloc_lookup_old (L ∩ R) h) as Oa.
  destruct (alloc (L ∩ R) h) as [a h1]. simpl in Fa, Na, Oa.
  rewrite (Oa _ _ Hl), (Oa _ _ Hr). cbn -[alloc].
  pose proof (alloc_fresh (L ∖ R) h1) as Fb.
  pose proof (alloc_lookup_new (L ∖ R) h1) as Nb.
  pose proof (alloc_lookup_old (L ∖ R) h1) as Ob.
  destruct (alloc (L ∖ R) h1) as [b h2]. simpl in Fb, Nb, Ob.
  rewrite (Ob _ _ (Oa _ _ Hl)), (Ob _ _ (Oa _ _ Hr)). cbn -[alloc].
  pose proof (alloc_fresh (R ∖ L) h2) as Fc.
  pose proof (alloc_lookup_old (R ∖ L) h2) as Oc.
  destruct (alloc (R ∖ L) h2) as [c h3]. simpl in Fc, Oc.
  exists a, b, c, h3. split; [done|].
  assert (Hb : h !! b = None).
  { destruct (h !! b) as [v|] eqn:E; [|done].
    apply Oa in E. congruence. }
  assert (Hc : h !! c = None).
  { destruct (h !! c) as [v|] eqn:E; [|done].
    apply Oa, Ob in E. congruence. }
  repeat split; try done.
  - intros ->. congruence.
  - intros ->. apply Ob in Na. congruence.
  - intros ->. congruence.
  - intros k v Hk. by apply Oc, Ob, Oa.
Qed.

(** ** The tabular extractor *)

Lemma size_list_to_set_le (l : list pyval) :
  (size (list_to_set l : gset pyval) ≤ length l)%nat.
Proof.
  apply submseteq_length, NoDup_submseteq; [apply NoDup_elements|].
  intros x Hx. by apply elem_of_elements, elem_of_list_to_set in Hx.
Qed.

(** X4: an error of the reader chosen by the extension is the extractor's
    error, and nothing is written on the page. *)
Theorem extract_tabular_reader_error (file : UploadedFile) (e : exn) :
  (endswith (name file) (py ".xlsx") = true
   ∧ pd_read_excel (content file) = inl e)
  ∨ (endswith (name file) (py ".xlsx") = false
     ∧ endswith (name file) (py ".csv") = true
     ∧ pd_read_csv (content file) = inl e) →
  run (extract_codes_from_excel_or_csv file) = (Raised e, []).
Proof.
  unfold run, extract_codes_from_excel_or_csv.
  intros [[Hx Hr] | (Hx & Hc & Hr)].
  - rewrite Hx. app_step Hr.
  - rewrite Hx, Hc. app_step Hr.
Qed.

(** X6: only the first column is read: two recognized inputs whose tables
    have the same cells in their first column give the same outcome,
    whatever their headers and their other columns. *)
Theorem extract_tabular_first_column_only (file file' : UploadedFile)
    (df df' : DataFrame) header header' series rest rest' :
  parsed_as file df → parsed_as file' df' →
  df_columns df = (header, series) :: rest →
  df_columns df' = (header', series) :: rest' →
  run (extract_codes_from_excel_or_csv file)
  = run (extract_codes_from_excel_or_csv file').
Proof.
  intros Hp Hp' Hc Hc'.
  rewrite (extract_tabular_parsed file df Hp).
  rewrite (extract_tabular_parsed file' df' Hp').
  rewrite (first_column_codes_run df header series rest [] Hc).
  by rewrite (first_column_codes_run df' header' series rest' [] Hc').
Qed.

(** X7: the extractor returns at most as many codes as the table has data
    rows, and no code exactly when the table has no data row. *)
Theorem extract_tabular_size (file : UploadedFile) (df : DataFrame)
    header series rest :
  parsed_as file df →
  df_columns df = (header, series) :: rest →
  ∃ codes,
    run (extract_codes_from_excel_or_csv file) = (Returned codes, [])
    ∧ (size codes ≤ length series)%nat
    ∧ (codes = ∅ ↔ series = []).
Proof.
  intros Hp Hc. eexists. split; [|split].
  - rewrite (extract_tabular_parsed file df Hp).
    by apply (first_column_codes_run df header series rest).
  - etrans; [apply size_list_to_set_le|].
    unfold astype_str. by rewrite !length_fmap.
  - split.
    + destruct series as [|value series]; [done|].
      intros He. exfalso.
      assert (Hin : PStr (cell_str value)
                    ∈ (list_to_set (PStr <$> astype_str (value :: series))
                       : gset pyval)).
      { apply elem_of_list_to_set. simpl. left. }
      rewrite He in Hin. by apply not_elem_of_empty in Hin.
    + by intros ->.
Qed.

(** ** Extensions are compared as they are written *)

Lemma endswith_last (s suffix : list N) :
  endswith s suffix = true → suffix ≠ [] → list.last s = list.last suffix.
Proof.
  unfold endswith. intros Hd%bool_decide_eq_true Hne.
  rewrite <- (take_drop (length s - length suffix) s), Hd, last_app.
  destruct (list.last suffix) eqn:E; [done|].
  by apply last_None in E.
Qed.

Lemma endswith_other_last (stem s suffix : list N) c d :
  list.last s = Some c → list.last suffix = Some d → c ≠ d →
  endswith (stem ++ s) suffix = false.
Proof.
  intros Hs Hsuf Hne. destruct (endswith (stem ++ s) suffix) eqn:E; [|done].
  apply endswith_last in E; [|by intros ->].
  rewrite last_app, Hs, Hsuf in E. congruence.
Qed.

(** X8: the extension test is case-sensitive: a name that ends in .CSV or
    .XLSX is not a recognized table, and one that ends in .TXT or .DOCX is
    not a recognized document; both get the unsupported-format treatment. *)
Theorem extract_extension_case (file : UploadedFile) (stem pattern : str) :
  (name file = stem ++ py ".CSV" ∨ name file = stem ++ py ".XLSX" →
   run (extract_codes_from_excel_or_csv file)
   = (Returned ∅, [StError (py "Unsupported file format!")]))
  ∧ (name file = stem ++ py ".TXT" ∨ name file = stem ++ py ".DOCX" →
     run (extract_codes_from_text_or_word file pattern)
     = (Returned ∅, [StError (py "Unsupported file format!")])).
Proof.
  split.
  - intros Hn. unfold run, extract_codes_from_excel_or_csv.
    assert (Hx : endswith (name file) (py ".xlsx") = false).
    { destruct Hn as [-> | ->].
      - by apply (endswith_other_last _ _ _ 86 120).
      - by apply (endswith_other_last _ _ _ 88 120). }
    assert (Hc : endswith (name file) (py ".csv") = false).
    { destruct Hn as [-> | ->].
      - by apply (endswith_other_last _ _ _ 86 118).
      - by apply (endswith_other_last _ _ _ 88 118). }
    by rewrite Hx, Hc.
  - intros Hn. unfold run, extract_codes_from_text_or_word.
    assert (Hd : endswith (name file) (py ".docx") = false).
    { destruct Hn as [-> | ->].
      - by apply (endswith_other_last _ _ _ 84 120).
      - by apply (endswith_other_last _ _ _ 88 120). }
    assert (Ht : endswith (name file) (py ".txt") = false).
    { destruct Hn as [-> | ->].
      - by apply (endswith_other_last _ _ _ 84 116).
      - by apply (endswith_other_last _ _ _ 88 116). }
    by rewrite Hd, Ht.
Qed.

(** ** The text extractor *)

(** X9: an error while the document is read (by the word-processor reader
    or by the UTF-8 decoder) is the extractor's error whatever the pattern,
    even a malformed one: the pattern is not looked at. *)
Theorem extract_text_read_error (file : UploadedFile) (pattern : str)
    (e : exn) :
  (endswith (name file) (py ".docx") = true
   ∧ docx_Document (content file) = inl e)
  ∨ (endswith (name file) (py ".docx") = false
     ∧ endswith (name file) (py ".txt") = true
     ∧ decode (content file) = inl e) →
  run (extract_codes_from_text_or_word file pattern) = (Raised e, []).
Proof.
  unfold run, extract_codes_from_text_or_word.
  intros [[Hd Hr] | (Hd & Ht & Hr)].
  - rewrite Hd. app_step Hr.
  - rewrite Hd, Ht. app_step Hr.
Qed.

Ltac bools :=
  unfold continuation, in_range in *;
  repeat match goal with
  | H : _ && _ = true |- _ => apply andb_true_iff in H as [? ?]
  | H : _ && _ = false |- _ => apply andb_false_iff in H
  | H : (_ <=? _) = true |- _ => apply N.leb_le in H
  | H : (_ <=? _) = false |- _ => apply N.leb_gt in H
  | H : (_ <? _) = true |- _ => apply N.ltb_lt in H
  | H : (_ <? _) = false |- _ => apply N.ltb_ge in H
  | H : (_ =? _) = true |- _ => apply N.eqb_eq in H
  | H : (_ =? _) = false |- _ => apply N.eqb_neq in H
  end.

Lemma utf8_decode_ascii (bs : list N) :
  Forall (λ b, b < 128) bs → utf8_decode bs = Some bs.
Proof.
  induction 1 as [|b bs Hb _ IH]; [done|].
  simpl. apply N.ltb_lt in Hb. rewrite Hb, IH. done.
Qed.

Lemma utf8_decode_scalar (n : nat) :
  ∀ bs s, (length bs ≤ n)%nat → utf8_decode bs = Some s →
    Forall scalar_value s ∧ (length s ≤ length bs)%nat.
Proof.
  induction n as [|n IH]; intros bs s Hlen.
  - destruct bs; [|simpl in Hlen; lia]. by intros [= <-].
  - destruct bs as [|b0 r0]; [by intros [= <-]|]. simpl in Hlen.
    simpl. destruct (b0 <? 128) eqn:E0.
    { intros (s' & Hs' & ->)%fmap_Some.
      destruct (IH r0 s' ltac:(lia) Hs') as [Hf Hl].
      split; [|simpl; lia]. constructor; [|done]. bools. split; lia. }
    destruct (in_range 194 223 b0) eqn:E1.
    { destruct r0 as [|b1 r1]; [done|].
      destruct (continuation b1) eqn:C1; [|done].
      intros (s' & Hs' & ->)%fmap_Some. simpl in Hlen.
      destruct (IH r1 s' ltac:(lia) Hs') as [Hf Hl].
      split; [|simpl; lia]. constructor; [|done]. bools. split; lia. }
    destruct (in_range 224 239 b0) eqn:E2.
    { destruct r0 as [|b1 [|b2 r2]]; [done|done|].
      destruct (_ && continuation b2) eqn:C; [|done].
      intros (s' & Hs' & ->)%fmap_Some. simpl in Hlen.
      destruct (IH r2 s' ltac:(lia) Hs') as [Hf Hl].
      split; [|simpl; lia]. constructor; [|done].
      destruct (b0 =? 224) eqn:A; destruct (b0 =? 237) eqn:B;
        bools; split; lia. }
    destruct (in_range 240 244 b0) eqn:E3; [|done].
    destruct r0 as [|b1 [|b2 [|b3 r3]]]; [done|done|done|].
    destruct (_ && continuation b3) eqn:C; [|done].
    intros (s' & Hs' & ->)%fmap_Some. simpl in Hlen.
    destruct (IH r3 s' ltac:(lia) Hs') as [Hf Hl].
    split; [|simpl; lia]. constructor; [|done].
    destruct (b0 =? 240) eqn:A; destruct (b0 =? 244) eqn:B;
      bools; split; lia.
Qed.

(** X13: a .txt file made of ASCII bytes is always readable: the extractor
    is the pattern match over its bytes taken as characters. *)
Theorem extract_text_ascii (file : UploadedFile) (pattern : str) :
  endswith (name file) (py ".docx") = false →
  endswith (name file) (py ".txt") = true →
  Forall (λ b, Byte.to_N b < 128) (content file) →
  run (extract_codes_from_text_or_word file pattern)
  = pattern_codes pattern (Byte.to_N <$> content file) [].
Proof.
  intros Hd Ht Hascii. apply extract_text_document. right.
  split; [done|]. split; [done|]. unfold decode.
  rewrite utf8_decode_ascii; [done|]. by apply Forall_fmap.
Qed.

(** X14: whatever the bytes, decoded text holds Unicode scalar values only
    (in range, no surrogate) and has no more characters than there were
    bytes. *)
Theorem decode_scalar_values (bs : list Byte.byte) (s : str) :
  decode bs = inr s →
  Forall scalar_value s ∧ (length s ≤ length bs)%nat.
Proof.
  unfold decode. destruct (utf8_decode (Byte.to_N <$> bs)) as [s'|] eqn:E;
    [|done].
  intros [= <-].
  destruct (utf8_decode_scalar (length bs) (Byte.to_N <$> bs) s') as [Hf Hl];
    [by rewrite length_fmap | done |].
  rewrite length_fmap in Hl. done.
Qed.

(** Matching one character at a time *)

Lemma one_char_inv text p st st' :
  st' ∈ one_char text p st →
  ∃ c, text !! pos st = Some c ∧ p c = true ∧ st' = advance st.
Proof.
  unfold one_char. destruct (text !! pos st) as [c|]; [|by inv 1].
  destruct (p c) eqn:E; [|by inv 1].
  intros ->%list_elem_of_singleton. by exists c.
Qed.

Lemma run_of_step p text i j c :
  text !! i = Some c → p c = true → run_of p text (S i) j → run_of p text i j.
Proof.
  intros Hc Hp [Hle Hall]. split; [lia|]. intros k Hk.
  destruct (decide (k = i)) as [-> | ?]; [by exists c|]. apply Hall. lia.
Qed.

Lemma rep_min_one_char text p n :
  ∀ st st', st' ∈ rep_min (one_char text p) n st →
    pos st' = (pos st + n)%nat ∧ run_of p text (pos st) (pos st').
Proof.
  induction n as [|n IH]; intros st st'; simpl.
  - intros ->%list_elem_of_singleton. split; [lia|]. split; [lia|]. intros; lia.
  - intros (mid & Hst' & Hmid)%list_elem_of_bind.
    apply one_char_inv in Hmid as (c & Hc & Hp & ->).
    apply IH in Hst' as [Hpos Hrun]. simpl in *. split; [lia|].
    by apply (run_of_step p text _ _ c).
Qed.

Lemma rep_more_one_char text p greedy fuel :
  ∀ left last_ptr st st',
    st' ∈ rep_more (one_char text p) greedy fuel left last_ptr st →
    run_of p text (pos st) (pos st').
Proof.
  induction fuel as [|fuel IH]; intros left last_ptr st st'.
  - intros ->%list_elem_of_singleton. split; [lia|]. intros; lia.
  - rewrite rep_more_S. cbv zeta.
    assert (Hhere : run_of p text (pos st) (pos st)) by (split; [lia | intros; lia]).
    assert (Hmore : ∀ x,
      x ∈ (if may_repeat left
              && negb (bool_decide (last_ptr = Some (pos st)))
           then y ← one_char text p st;
                rep_more (one_char text p) greedy fuel (N.pred <$> left)
                  (Some (pos st)) y
           else []) → run_of p text (pos st) (pos x)).
    { intros x. destruct (_ && _); [|by inv 1].
      intros (mid & Hx & Hmid)%list_elem_of_bind.
      apply one_char_inv in Hmid as (c & Hc & Hp & ->).
      apply IH in Hx. by apply (run_of_step p text _ _ c). }
    destruct greedy.
    + intros [Hx | ->%list_elem_of_singleton]%elem_of_app; auto.
    + intros [-> | Hx]%elem_of_cons; auto.
Qed.

Lemma slice_cons (text : list N) i j c :
  text !! i = Some c → (i < j)%nat → slice text i j = c :: slice text (S i) j.
Proof.
  intros Hc Hlt. unfold slice. rewrite (drop_S _ _ _ Hc).
  replace (j - i)%nat with (S (j - S i)) by lia. done.
Qed.

Lemma slice_run_of p (text : list N) i j :
  run_of p text i j → Forall (λ c, p c = true) (slice text i j)
                      ∧ length (slice text i j) = (j - i)%nat.
Proof.
  intros [Hle Hall]. unfold slice. split.
  - apply Forall_lookup. intros k x Hk.
    apply lookup_take_Some in Hk as [Hk Hlt]. rewrite lookup_drop in Hk.
    destruct (Hall (i + k)%nat ltac:(lia)) as (c & Hc & Hp). congruence.
  - rewrite length_take, length_drop.
    destruct (decide (i = j)) as [-> | Hne]; [lia|].
    destruct (Hall (j - 1)%nat ltac:(lia)) as (c & Hc & _).
    apply lookup_lt_Some in Hc. lia.
Qed.

Lemma exec_default_pattern text r s st :
  parse default_pattern = inr (r, 0%nat) →
  st ∈ exec' text r (initial s) →
  ∃ digits,
    slice text s (pos st) = py "INT-" ++ digits
    ∧ digits ≠ []
    ∧ Forall (λ c, is_digit uni_isdecimal c = true) digits.
Proof.
  intros Hp. vm_compute in Hp. injection Hp as <-. cbn [exec].
  intros (s1 & Hst & (c1 & H1 & E1%N.eqb_eq & ->)%one_char_inv)%list_elem_of_bind.
  apply list_elem_of_bind in Hst
    as (s2 & Hst & (c2 & H2 & E2%N.eqb_eq & ->)%one_char_inv).
  apply list_elem_of_bind in Hst
    as (s3 & Hst & (c3 & H3 & E3%N.eqb_eq & ->)%one_char_inv).
  apply list_elem_of_bind in Hst
    as (s4 & Hst & (c4 & H4 & E4%N.eqb_eq & ->)%one_char_inv).
  apply list_elem_of_bind in Hst as (s5 & Heq%list_elem_of_singleton & Hst).
  subst s5.
  apply list_elem_of_bind in Hst as (s6 & Hmore & Hmin).
  apply rep_min_one_char in Hmin as [Hpos Hmin].
  apply rep_more_one_char in Hmore.
  simpl in *. subst.
  assert (Hrun : run_of (charset_test uni_isdecimal uni_isspace uni_isalnum
                           false [SCategory CatDigit]) text
                   (S (S (S (S s)))) (pos st)).
  { destruct Hmin as [Hl1 Ha1], Hmore as [Hl2 Ha2]. split; [lia|].
    intros k Hk. destruct (decide (k < pos s6)%nat); [apply Ha1 | apply Ha2]; lia. }
  destruct Hmore as [Hle _].
  apply slice_run_of in Hrun as [Hall Hlen].
  exists (slice text (S (S (S (S s)))) (pos st)). split; [|split].
  - rewrite (slice_cons _ _ _ _ H1), (slice_cons _ _ _ _ H2),
      (slice_cons _ _ _ _ H3), (slice_cons _ _ _ _ H4) by lia. done.
  - intros He. rewrite He in Hlen. simpl in Hlen. lia.
  - eapply List.Forall_impl; [|exact Hall]. intros c. unfold charset_test.
    simpl. by rewrite orb_false_r.
Qed.

(** X11: with the default pattern, every code returned for a recognized
    document is INT- followed by one or more digits. *)
Theorem extract_text_default_pattern (file : UploadedFile) (text : str) :
  document_text file text →
  ∃ codes,
    run (extract_codes_from_text_or_word file default_pattern)
    = (Returned codes, [])
    ∧ ∀ c, c ∈ codes →
        ∃ digits,
          c = PStr (py "INT-" ++ digits)
          ∧ digits ≠ []
          ∧ Forall (λ d, is_digit uni_isdecimal d = true) digits.
Proof.
  intros Hdoc.
  destruct (parse default_pattern) as [e | [r groups]] eqn:Hp;
    [by vm_compute in Hp|].
  assert (groups = 0%nat) as -> by (vm_compute in Hp; congruence).
  eexists. split.
  - rewrite (extract_text_document file text default_pattern Hdoc).
    by rewrite (pattern_codes_parsed default_pattern text r 0 [] Hp).
  - intros c. rewrite elem_of_list_to_set, list_elem_of_fmap.
    intros ([s st] & -> & Hin). apply finditer_spans in Hin as [_ Hex].
    destruct (exec_default_pattern text r s st Hp Hex)
      as (digits & Hslice & Hne & Hall).
    exists digits. simpl. unfold matched_text. simpl. by rewrite Hslice.
Qed.

Lemma scan_in_text_order text r fuel :
  ∀ must_advance start, in_text_order (scan' text fuel r must_advance start).
Proof.
  induction fuel as [|fuel IH]; intros must_advance start i j m1 m2 Hlt;
    [done|].
  rewrite scan_S. case_bool_decide as Hlen; [|done].
  destruct (search' text r must_advance start) as [[s st]|] eqn:E; [|done].
  destruct j as [|j]; [lia|]. destruct i as [|i]; simpl.
  - intros [= <-] Hj. apply list_elem_of_lookup_2 in Hj.
    destruct m2 as [s2 st2]. apply scan_spans in Hj as (Hs & _). simpl. lia.
  - apply IH. lia.
Qed.

(** X12: the matches behind the returned codes come in the order of the
    text and never overlap: each starts at or after the end of the one
    before, and each lies inside the text. *)
Theorem finditer_in_text_order text r :
  in_text_order (finditer' text r)
  ∧ ∀ m, m ∈ finditer' text r → (m.1 ≤ pos m.2 ≤ length text)%nat.
Proof.
  split; [apply scan_in_text_order|].
  intros [s st] Hin. apply finditer_spans in Hin as [Hspan _]. done.
Qed.

(** ** The whole run *)

(** The extractors only add to the page, and do not look at it. *)
Lemma first_column_codes_page (df : DataFrame) ui :
  first_column_codes df ui
  = ((first_column_codes df []).1, ui ++ (first_column_codes df []).2).
Proof.
  unfold first_column_codes, mbind, app_mbind, app_bind, app_lift.
  destruct (iloc_column df 0) as [e | series]; simpl; by rewrite app_nil_r.
Qed.

Lemma extract_tabular_page (file : UploadedFile) ui :
  extract_codes_from_excel_or_csv file ui
  = ((run (extract_codes_from_excel_or_csv file)).1,
     ui ++ (run (extract_codes_from_excel_or_csv file)).2).
Proof.
  unfold run, extract_codes_from_excel_or_csv.
  unfold mbind, app_mbind, app_bind, app_lift.
  destruct (endswith (name file) (py ".xlsx")).
  { destruct (pd_read_excel (content file)) as [e | df]; simpl;
      [by rewrite app_nil_r | apply first_column_codes_page]. }
  destruct (endswith (name file) (py ".csv")); [|done].
  destruct (pd_read_csv (content file)) as [e | df]; simpl;
    [by rewrite app_nil_r | apply first_column_codes_page].
Qed.

Lemma pattern_codes_page (pattern text : str) ui :
  pattern_codes pattern text ui
  = ((pattern_codes pattern text []).1,
     ui ++ (pattern_codes pattern text []).2).
Proof.
  unfold pattern_codes, mbind, app_mbind, app_bind, app_lift.
  destruct (re_findall pattern text) as [e | found]; simpl;
    by rewrite app_nil_r.
Qed.

Lemma extract_text_page (file : UploadedFile) (pattern : str) ui :
  extract_codes_from_text_or_word file pattern ui
  = ((run (extract_codes_from_text_or_word file pattern)).1,
     ui ++ (run (extract_codes_from_text_or_word file pattern)).2).
Proof.
  unfold run, extract_codes_from_text_or_word.
  unfold mbind, app_mbind, app_bind, app_lift.
  destruct (endswith (name file) (py ".docx")).
  { destruct (docx_Document (content file)) as [e | paragraphs]; simpl;
      [by rewrite app_nil_r | apply pattern_codes_page]. }
  destruct (endswith (name file) (py ".txt")); [|done].
  destruct (decode (content file)) as [e | text]; simpl;
    [by rewrite app_nil_r | apply pattern_codes_page].
Qed.

(** [main] in terms of the two extractions, each run on its own. *)
Lemma main_by_cases (code_file text_file : UploadedFile) (pattern : str) :
  run (main (Some code_file) (Some text_file) pattern)
  = match run (extract_codes_from_excel_or_csv code_file) with
    | (Raised e, m1) => (Raised e, m1)
    | (Returned E, m1) =>
        match run (extract_codes_from_text_or_word text_file pattern) with
        | (Raised e, m2) => (Raised e, m1 ++ m2)
        | (Returned W, m2) =>
            match pd_DataFrame (result_columns (E ∩ W) (E ∖ W) (W ∖ E)) with
            | inl e => (Raised e, m1 ++ m2)
            | inr result_df => (Returned (Some result_df), m1 ++ m2)
            end
        end
    end.
Proof.
  unfold main. unfold run at 1. unfold mbind, app_mbind.
  unfold app_bind at 1.
  destruct (run (extract_codes_from_excel_or_csv code_file)) as [[E | e] m1]
    eqn:H1; unfold run in H1; rewrite H1; [|done].
  unfold app_bind at 1. rewrite extract_text_page.
  destruct (run (extract_codes_from_text_or_word text_file pattern))
    as [[W | e] m2] eqn:H2; cbn [fst snd]; [|done].
  unfold compare_codes, app_bind, app_lift.
  by destruct (pd_DataFrame (result_columns (E ∩ W) (E ∖ W) (W ∖ E))).
Qed.

(** X15: [main] raises the first error met: the tabular extractor's, and
    then neither the document nor the pattern is looked at; otherwise the
    text extractor's.  The page keeps the messages written until then. *)
Theorem main_first_error (code_file text_file : UploadedFile) (pattern : str)
    (e : exn) :
  (∀ m1, run (extract_codes_from_excel_or_csv code_file) = (Raised e, m1) →
         run (main (Some code_file) (Some text_file) pattern)
         = (Raised e, m1))
  ∧ (∀ E m1 m2,
       run (extract_codes_from_excel_or_csv code_file) = (Returned E, m1) →
       run (extract_codes_from_text_or_word text_file pattern)
       = (Raised e, m2) →
       run (main (Some code_file) (Some text_file) pattern)
       = (Raised e, m1 ++ m2)).
Proof.
  split.
  - intros m1 H1. by rewrite main_by_cases, H1.
  - intros E m1 m2 H1 H2. by rewrite main_by_cases, H1, H2.
Qed.

(** ** What is shown *)

Lemma notna_mask_single (title : string) (column : list (option pyval)) :
  notna_mask [(title, column)]
  = (λ c, match c with Some _ => true | None => false end) <$> column.
Proof.
  unfold notna_mask, notna_row, nrows. apply list_eq. intros i.
  rewrite !list_lookup_fmap. simpl.
  destruct (column !! i) as [c|] eqn:E.
  - rewrite lookup_seq_lt by (by apply lookup_lt_Some in E). simpl.
    rewrite E. by destruct c.
  - rewrite lookup_seq_ge; [done|]. by apply lookup_ge_None in E.
Qed.

Lemma keep_rows_blanks (members : list pyval) (blanks : nat) :
  keep_rows
    ((λ c : option pyval, match c with Some _ => true | None => false end)
       <$> ((Some <$> members) ++ replicate blanks None))
    ((Some <$> members) ++ replicate blanks None)
  = Some <$> members.
Proof.
  induction members as [|x members IH]; csimpl.
  - induction blanks as [|blanks IH]; [done|]. done.
  - by rewrite IH.
Qed.

Lemma dropna_padded (title : string) max_len (codes : gset pyval) :
  dropna [(title, padded max_len codes)]
  = [(title, Some <$> set_order codes)].
Proof.
  unfold dropna. simpl. rewrite notna_mask_single. unfold padded.
  by rewrite keep_rows_blanks.
Qed.

(** X18: once the table is built, what is shown is the download button for
    the workbook and then, column by column, a heading and the members of
    the set with the blank cells removed; and when the workbook cannot be
    written, nothing of the result is shown at all. *)
Theorem show_results_panels (M LO RO : gset pyval) :
  (∀ data, to_excel (result_columns M LO RO) = inr data →
     show_results (result_columns M LO RO)
     = ([ DownloadButton (128229 :: py " Download Results") data
            (py "comparison_result.xlsx");
          Write 0 (py "### Matching Codes");
          Dataframe 0 [("Matching codes", Some <$> set_order M)];
          Write 1 (py "### Codes Only in Excel/CSV");
          Dataframe 1 [("Codes only in Excel/CSV", Some <$> set_order LO)];
          Write 2 (py "### Codes Only in Word/TXT");
          Dataframe 2 [("Codes only in Word/TXT", Some <$> set_order RO)] ],
        None))
  ∧ (∀ e, to_excel (result_columns M LO RO) = inl e →
       show_results (result_columns M LO RO) = ([], Some e)).
Proof.
  split.
  - intros data Hx. unfold show_results. rewrite Hx.
    unfold panel, result_columns. simpl. by rewrite !dropna_padded.
  - intros e Hx. unfold show_results. by rewrite Hx.
Qed.

(** ** The output table *)

Section OutputTable.
(** Listing a set yields each of its members once. *)
Hypothesis set_order_perm : ∀ s, set_order s ≡ₚ elements s.

Lemma set_order_length (codes : gset pyval) :
  length (set_order codes) = size codes.
Proof using set_order_perm.
  by rewrite (Permutation_length (set_order_perm codes)).
Qed.

Lemma padded_length max_len (codes : gset pyval) :
  (size codes ≤ max_len)%nat → length (padded max_len codes) = max_len.
Proof using set_order_perm.
  intros Hle. unfold padded.
  rewrite length_app, length_fmap, length_replicate, set_order_length. lia.
Qed.

Lemma padded_lists_members max_len (codes : gset pyval) :
  (size codes ≤ max_len)%nat → lists_members (padded max_len codes) codes.
Proof using set_order_perm.
  intros Hle. exists (set_order codes). split; [apply set_order_perm|].
  by rewrite padded_length.
Qed.

Lemma result_columns_frame (M LO RO : gset pyval) :
  pd_DataFrame (result_columns M LO RO) = inr (result_columns M LO RO).
Proof using set_order_perm.
  unfold result_columns, pd_DataFrame. simpl.
  rewrite !padded_length by lia. by rewrite Nat.eqb_refl.
Qed.

(** C9: each of the three columns lists exactly the members of its set and
    then blank cells, and the three columns have the same number of rows,
    the size of the largest set; building the table never fails. *)
Theorem result_columns_padded (M LO RO : gset pyval) :
  let rows := Nat.max (size M) (Nat.max (size LO) (size RO)) in
  ∃ c1 c2 c3,
    result_columns M LO RO
    = [ ("Matching codes"%string, c1);
        ("Codes only in Excel/CSV"%string, c2);
        ("Codes only in Word/TXT"%string, c3) ]
    ∧ lists_members c1 M ∧ lists_members c2 LO ∧ lists_members c3 RO
    ∧ length c1 = rows ∧ length c2 = rows ∧ length c3 = rows
    ∧ pd_DataFrame (result_columns M LO RO)
      = inr (result_columns M LO RO).
Proof using set_order_perm.
  intros rows.
  assert (H1 : (size M ≤ rows)%nat) by (unfold rows; lia).
  assert (H2 : (size LO ≤ rows)%nat) by (unfold rows; lia).
  assert (H3 : (size RO ≤ rows)%nat) by (unfold rows; lia).
  exists (padded rows M), (padded rows LO), (padded rows RO).
  split; [done|].
  repeat split; try (by apply padded_lists_members);
    try (by apply padded_length).
  apply result_columns_frame.
Qed.

(** [main] hands the three sets of the comparator to the table. *)
Lemma main_result (code_file text_file : UploadedFile) (pattern : str)
    (E W : gset pyval) ui1 ui2 :
  run (extract_codes_from_excel_or_csv code_file) = (Returned E, ui1) →
  extract_codes_from_text_or_word text_file pattern ui1
  = (Returned W, ui2) →
  run (main (Some code_file) (Some text_file) pattern)
  = (Returned (Some (result_columns (E ∩ W) (E ∖ W) (W ∖ E))), ui2).
Proof using set_order_perm.
  unfold run, main. intros HE HW.
  unfold mbind, app_mbind, app_bind at 1. rewrite HE.
  unfold app_bind at 1. rewrite HW. unfold compare_codes.
  unfold app_bind. by rewrite result_columns_frame.
Qed.

(** X17: the two extractions do not depend on each other: when each returns
    on its own, [main] returns the table of the three sets of the
    comparator, and the page holds the messages of the tabular extraction
    followed by those of the text extraction. *)
Theorem main_independent_runs (code_file text_file : UploadedFile)
    (pattern : str) (E W : gset pyval) m1 m2 :
  run (extract_codes_from_excel_or_csv code_file) = (Returned E, m1) →
  run (extract_codes_from_text_or_word text_file pattern) = (Returned W, m2) →
  run (main (Some code_file) (Some text_file) pattern)
  = (Returned (Some (result_columns (E ∩ W) (E ∖ W) (W ∖ E))), m1 ++ m2).
Proof using set_order_perm.
  intros H1 H2. by rewrite main_by_cases, H1, H2, result_columns_frame.
Qed.

(** X16: comparing and building the table never fail: an exception of
    [main] is always the exception of one of the two extractors. *)
Theorem main_raises_only_from_extractors (code_file text_file : UploadedFile)
    (pattern : str) (e : exn) ui :
  run (main (Some code_file) (Some text_file) pattern) = (Raised e, ui) →
  run (extract_codes_from_excel_or_csv code_file) = (Raised e, ui)
  ∨ ∃ E m1 m2,
      run (extract_codes_from_excel_or_csv code_file) = (Returned E, m1)
      ∧ run (extract_codes_from_text_or_word text_file pattern)
        = (Raised e, m2)
      ∧ ui = m1 ++ m2.
Proof using set_order_perm.
  rewrite main_by_cases.
  destruct (run (extract_codes_from_excel_or_csv code_file)) as [[E | e1] m1];
    [|by intros [= -> ->]; left].
  destruct (run (extract_codes_from_text_or_word text_file pattern))
    as [[W | e2] m2].
  - by rewrite result_columns_frame.
  - intros [= -> <-]. right. by exists E, m1, m2.
Qed.
End OutputTable.
End Program.

(** * Concrete runs *)

(** The end-to-end example: tabular codes INT-1, INT-2, INT-3 against text
    codes INT-2, INT-3, INT-4. *)
Example compare_codes_end_to_end :
  compare_codes {[ PStr (py "INT-1"); PStr (py "INT-2"); PStr (py "INT-3") ]}
                {[ PStr (py "INT-2"); PStr (py "INT-3"); PStr (py "INT-4") ]}
  = ({[ PStr (py "INT-2"); PStr (py "INT-3") ]},
     {[ PStr (py "INT-1") ]}, {[ PStr (py "INT-4") ]}).
Proof. compute_done. Qed.

Lemma compare_codes_total_witness :
  is_Some (compare_codes_heap 0 1
             (<[0%nat := {[ PStr (py "INT-1") ]}]> (<[1%nat := ∅]> ∅))).
Proof.
  destruct compare_codes_total as [Hreturns _].
  apply (Hreturns _ 0%nat 1%nat {[ PStr (py "INT-1") ]} ∅); reflexivity.
Defined.

Lemma compare_codes_idempotent_witness :
  ∃ t1 h1 t2 h2,
    compare_codes_heap 0 0 (<[0%nat := {[ PStr (py "INT-1") ]}]> ∅)
    = Some (t1, h1)
    ∧ compare_codes_heap 0 0 h1 = Some (t2, h2)
    ∧ deref3 h2 t1 = deref3 h2 t2.
Proof.
  destruct (compare_codes_idempotent
              (<[0%nat := {[ PStr (py "INT-1") ]}]> ∅) 0 0
              {[ PStr (py "INT-1") ]} {[ PStr (py "INT-1") ]})
    as [(t1 & h1 & t2 & h2 & E1 & E2 & _ & D2 & D1) _];
    [reflexivity | reflexivity |].
  exists t1, h1, t2, h2. rewrite D1, D2. auto.
Defined.


Lemma extract_tabular_no_rows_witness :
  parsed_as csv_reader csv_reader header_only_csv
    {| df_columns := [(py "Code", [])] |}
  ∧ run (extract_codes_from_excel_or_csv csv_reader csv_reader
           header_only_csv)
    = (Returned ∅, []).
Proof.
  assert (Hp : parsed_as csv_reader csv_reader header_only_csv
                 {| df_columns := [(py "Code", [])] |}).
  { right. repeat split; vm_compute; reflexivity. }
  split; [exact Hp|].
  exact (extract_tabular_no_rows csv_reader csv_reader header_only_csv _
           (py "Code") [] Hp eq_refl).
Defined.


Lemma extract_unsupported_format_witness :
  run (extract_codes_from_excel_or_csv csv_reader csv_reader notes_pdf)
  = (Returned ∅, [StError (py "Unsupported file format!")])
  ∧ run (extract_codes_from_text_or_word ascii_only ascii_only ascii_only
           no_docx notes_pdf (py "[unclosed"))
    = (Returned ∅, [StError (py "Unsupported file format!")]).
Proof.
  destruct (extract_unsupported_format ascii_only ascii_only ascii_only
              no_docx csv_reader csv_reader notes_pdf (py "[unclosed"))
    as [Htab Htext].
  split; [apply Htab | apply Htext]; vm_compute; reflexivity.
Defined.



Lemma result_columns_padded_witness :
  (∀ s : gset pyval, elements s ≡ₚ elements s)
  ∧ ∃ c1 c2 c3,
      result_columns elements
        {[ PStr (py "INT-2"); PStr (py "INT-3") ]}
        {[ PStr (py "INT-1") ]} {[ PStr (py "INT-4") ]}
      = [ ("Matching codes"%string, c1);
          ("Codes only in Excel/CSV"%string, c2);
          ("Codes only in Word/TXT"%string, c3) ]
      ∧ length c1 = 2%nat ∧ length c2 = 2%nat ∧ length c3 = 2%nat
      ∧ c2 !! 1%nat = Some None ∧ c3 !! 1%nat = Some None.
Proof.
  split; [reflexivity|].
  destruct (result_columns_padded elements (λ s, reflexivity _)
              {[ PStr (py "INT-2"); PStr (py "INT-3") ]}
              {[ PStr (py "INT-1") ]} {[ PStr (py "INT-4") ]})
    as (c1 & c2 & c3 & Hcols & _ & _ & _ & L1 & L2 & L3 & _).
  exists c1, c2, c3. split; [exact Hcols|].
  vm_compute in Hcols. injection Hcols as <- <- <-.
  repeat split; reflexivity.
Defined.

(** * Where the program departs from the specification *)


(** C4 fails as stated: on an unrecognized extension the extractor returns
    a result, the empty set, and raises nothing. *)
Lemma extract_unsupported_counterexample :
  ¬ (∀ file : UploadedFile,
       endswith (name file) (py ".xlsx") = false →
       endswith (name file) (py ".csv") = false →
       ∃ e ui,
         run (extract_codes_from_excel_or_csv csv_reader csv_reader file)
         = (Raised e, ui)).
Proof.
  intros Hclaim.
  destruct (Hclaim notes_pdf eq_refl eq_refl) as (e & ui & Hrun).
  discriminate Hrun.
Qed.


(** * Further runs of the text extractor *)

(** What the program returns on the input of the counterexample to C2. *)
Example extract_text_one_group_run :
  run (extract_codes_from_text_or_word ascii_only ascii_only ascii_only
         no_docx notes_txt (py "INT-(\d+)"))
  = (Returned {[ PStr (py "42"); PStr (py "7") ]}, []).
Proof. compute_done. Qed.

(** With two groups the members of the set are tuples. *)
Example extract_text_two_groups_run :
  run (extract_codes_from_text_or_word ascii_only ascii_only ascii_only
         no_docx notes_txt (py "(INT)-(\d+)"))
  = (Returned {[ PTuple [py "INT"; py "42"]; PTuple [py "INT"; py "7"] ]}, []).
Proof. compute_done. Qed.

(** A pattern that matches nowhere. *)
Example extract_text_no_match_run :
  run (extract_codes_from_text_or_word ascii_only ascii_only ascii_only
         no_docx notes_txt (py "EXT-\d+"))
  = (Returned ∅, []).
Proof. compute_done. Qed.

(** Paragraphs of a word-processor document are joined by newlines, which a
    code cannot span. *)
Example extract_docx_run :
  let reader : list Byte.byte → exn + list (list N) :=
    λ _, inr [py "see INT-42 and INT-"; py "7, also INT-9"] in
  run (extract_codes_from_text_or_word ascii_only ascii_only ascii_only
         reader {| name := py "report.docx"; content := [] |} default_pattern)
  = (Returned {[ PStr (py "INT-42"); PStr (py "INT-9") ]}, []).
Proof. compute_done. Qed.

(** Text that is not UTF-8 is rejected before the pattern is looked at. *)
Example extract_text_undecodable_run :
  run (extract_codes_from_text_or_word ascii_only ascii_only ascii_only
         no_docx {| name := py "bad.txt"; content := [Byte.xff] |}
         (py "[unclosed"))
  = (Raised UnicodeDecodeError, []).
Proof. compute_done. Qed.

(** A whole run of [main] on the sample files. *)
Example main_run :
  run (main ascii_only ascii_only ascii_only no_docx csv_reader csv_reader
         elements (Some codes_csv) (Some notes_txt) (py "[A-Z]+-\d+"))
  = (Returned (Some
       (result_columns elements ∅
          {[ PStr (py "A-1"); PStr (py "A-2") ]}
          {[ PStr (py "INT-42"); PStr (py "INT-7") ]})), []).
Proof. compute_done. Qed.

(** After an unrecognized extension [main] goes on with the empty set: the
    message is on the page and the table is built all the same. *)
Example main_unsupported_run :
  run (main ascii_only ascii_only ascii_only no_docx csv_reader csv_reader
         elements (Some codes_csv) (Some notes_pdf) default_pattern)
  = (Returned (Some
       (result_columns elements ∅ {[ PStr (py "A-1"); PStr (py "A-2") ]} ∅)),
     [StError (py "Unsupported file format!")]).
Proof. compute_done. Qed.

(** * Concrete runs for the further properties *)

Lemma extract_tabular_reader_error_witness :
  run (extract_codes_from_excel_or_csv csv_reader csv_reader blank_csv)
  = (Raised (LibraryError "EmptyDataError"), []).
Proof.
  apply (extract_tabular_reader_error csv_reader csv_reader blank_csv).
  right. repeat split; vm_compute; reflexivity.
Defined.

Lemma extract_tabular_no_column_witness :
  parsed_as empty_sheet_reader csv_reader
    {| name := py "book.xlsx"; content := [] |} {| df_columns := [] |}
  ∧ run (extract_codes_from_excel_or_csv empty_sheet_reader csv_reader
           {| name := py "book.xlsx"; content := [] |})
    = (Raised IndexError, []).
Proof.
  assert (Hp : parsed_as empty_sheet_reader csv_reader
                 {| name := py "book.xlsx"; content := [] |}
                 {| df_columns := [] |}).
  { left. split; vm_compute; reflexivity. }
  split; [exact Hp|].
  exact (extract_tabular_no_column empty_sheet_reader csv_reader _ _ Hp
           eq_refl).
Defined.

Lemma extract_tabular_first_column_only_witness :
  run (extract_codes_from_excel_or_csv csv_reader csv_reader codes_csv)
  = run (extract_codes_from_excel_or_csv csv_reader csv_reader stock_csv).
Proof.
  apply (extract_tabular_first_column_only csv_reader csv_reader
           codes_csv stock_csv
           {| df_columns :=
                [(py "Code",
                  [CStr (py "A-1"); CStr (py "A-2"); CStr (py "A-1")])] |}
           {| df_columns :=
                [(py "Id",
                  [CStr (py "A-1"); CStr (py "A-2"); CStr (py "A-1")]);
                 (py "Qty", [CStr (py "3"); CStr (py "4"); CStr (py "5")])] |}
           (py "Code") (py "Id")
           [CStr (py "A-1"); CStr (py "A-2"); CStr (py "A-1")] []
           [(py "Qty", [CStr (py "3"); CStr (py "4"); CStr (py "5")])]).
  - right. repeat split; vm_compute; reflexivity.
  - right. repeat split; vm_compute; reflexivity.
  - reflexivity.
  - reflexivity.
Defined.

Lemma extract_tabular_size_witness :
  ∃ codes,
    run (extract_codes_from_excel_or_csv csv_reader csv_reader codes_csv)
    = (Returned codes, [])
    ∧ (size codes ≤ 3)%nat.
Proof.
  destruct (extract_tabular_size csv_reader csv_reader codes_csv
              {| df_columns :=
                   [(py "Code",
                     [CStr (py "A-1"); CStr (py "A-2"); CStr (py "A-1")])] |}
              (py "Code") [CStr (py "A-1"); CStr (py "A-2"); CStr (py "A-1")]
              [])
    as (codes & Hrun & Hsize & _).
  - right. repeat split; vm_compute; reflexivity.
  - reflexivity.
  - exists codes. split; [exact Hrun | exact Hsize].
Defined.

Lemma extract_extension_case_witness :
  run (extract_codes_from_excel_or_csv csv_reader csv_reader shouting_csv)
  = (Returned ∅, [StError (py "Unsupported file format!")])
  ∧ run (extract_codes_from_text_or_word ascii_only ascii_only ascii_only
           no_docx {| name := py "NOTES.TXT"; content := [] |}
           default_pattern)
    = (Returned ∅, [StError (py "Unsupported file format!")]).
Proof.
  split.
  - apply (proj1 (extract_extension_case ascii_only ascii_only ascii_only
                    no_docx csv_reader csv_reader shouting_csv (py "CODES")
                    default_pattern)).
    left. reflexivity.
  - apply (proj2 (extract_extension_case ascii_only ascii_only ascii_only
                    no_docx csv_reader csv_reader
                    {| name := py "NOTES.TXT"; content := [] |} (py "NOTES")
                    default_pattern)).
    left. reflexivity.
Defined.

Lemma extract_text_read_error_witness :
  run (extract_codes_from_text_or_word ascii_only ascii_only ascii_only
         no_docx bad_txt (py "[unclosed"))
  = (Raised UnicodeDecodeError, []).
Proof.
  apply (extract_text_read_error ascii_only ascii_only ascii_only no_docx
           bad_txt (py "[unclosed")).
  right. repeat split; vm_compute; reflexivity.
Defined.


Lemma extract_text_default_pattern_witness :
  ∃ codes,
    run (extract_codes_from_text_or_word ascii_only ascii_only ascii_only
           no_docx notes_txt default_pattern)
    = (Returned codes, [])
    ∧ ∀ c, c ∈ codes →
        ∃ digits,
          c = PStr (py "INT-" ++ digits)
          ∧ digits ≠ []
          ∧ Forall (λ d, is_digit ascii_only d = true) digits.
Proof.
  apply (extract_text_default_pattern ascii_only ascii_only ascii_only
           no_docx notes_txt (py "see INT-42 and INT-42 again, also INT-7")).
  right. repeat split; vm_compute; reflexivity.
Defined.

Lemma extract_text_ascii_witness :
  run (extract_codes_from_text_or_word ascii_only ascii_only ascii_only
         no_docx notes_txt default_pattern)
  = pattern_codes ascii_only ascii_only ascii_only default_pattern
      (Byte.to_N <$> content notes_txt) [].
Proof.
  apply (extract_text_ascii ascii_only ascii_only ascii_only no_docx
           notes_txt default_pattern).
  - reflexivity.
  - reflexivity.
  - vm_compute. repeat constructor.
Defined.

Lemma decode_scalar_values_witness :
  decode [Byte.xc3; Byte.xa9] = inr [233]
  ∧ Forall scalar_value [233] ∧ (1 ≤ 2)%nat.
Proof.
  split; [reflexivity|].
  exact (decode_scalar_values [Byte.xc3; Byte.xa9] [233] eq_refl).
Defined.

Lemma main_first_error_witness :
  run (main ascii_only ascii_only ascii_only no_docx csv_reader csv_reader
         elements (Some blank_csv) (Some notes_txt) (py "[unclosed"))
  = (Raised (LibraryError "EmptyDataError"), [])
  ∧ run (main ascii_only ascii_only ascii_only no_docx csv_reader csv_reader
           elements (Some shouting_csv) (Some bad_txt) default_pattern)
    = (Raised UnicodeDecodeError,
       [StError (py "Unsupported file format!")]).
Proof.
  split.
  - apply (proj1 (main_first_error ascii_only ascii_only ascii_only no_docx
                    csv_reader csv_reader elements blank_csv notes_txt
                    (py "[unclosed") (LibraryError "EmptyDataError"))).
    vm_compute. reflexivity.
  - apply (proj2 (main_first_error ascii_only ascii_only ascii_only no_docx
                    csv_reader csv_reader elements shouting_csv bad_txt
                    default_pattern UnicodeDecodeError)
             ∅ [StError (py "Unsupported file format!")] []).
    + vm_compute. reflexivity.
    + vm_compute. reflexivity.
Defined.

Lemma main_independent_runs_witness :
  (∀ s : gset pyval, elements s ≡ₚ elements s)
  ∧ run (main ascii_only ascii_only ascii_only no_docx csv_reader csv_reader
           elements (Some codes_csv) (Some notes_pdf) default_pattern)
    = (Returned (Some
         (result_columns elements
            ({[ PStr (py "A-1"); PStr (py "A-2") ]} ∩ ∅)
            ({[ PStr (py "A-1"); PStr (py "A-2") ]} ∖ ∅)
            (∅ ∖ {[ PStr (py "A-1"); PStr (py "A-2") ]}))),
       [] ++ [StError (py "Unsupported file format!")]).
Proof.
  split; [reflexivity|].
  apply (main_independent_runs ascii_only ascii_only ascii_only no_docx
           csv_reader csv_reader elements (λ s, reflexivity _)
           codes_csv notes_pdf default_pattern).
  - compute_done.
  - vm_compute. reflexivity.
Defined.

Lemma main_raises_only_from_extractors_witness :
  (∀ s : gset pyval, elements s ≡ₚ elements s)
  ∧ run (main ascii_only ascii_only ascii_only no_docx csv_reader csv_reader
           elements (Some codes_csv) (Some bad_txt) default_pattern)
    = (Raised UnicodeDecodeError, [])
  ∧ ∃ E m1 m2,
      run (extract_codes_from_excel_or_csv csv_reader csv_reader codes_csv)
      = (Returned E, m1)
      ∧ run (extract_codes_from_text_or_word ascii_only ascii_only
               ascii_only no_docx bad_txt default_pattern)
        = (Raised UnicodeDecodeError, m2)
      ∧ [] = m1 ++ m2.
Proof.
  split; [reflexivity|].
  assert (Hrun : run (main ascii_only ascii_only ascii_only no_docx
                        csv_reader csv_reader elements (Some codes_csv)
                        (Some bad_txt) default_pattern)
                 = (Raised UnicodeDecodeError, []))
    by (vm_compute; reflexivity).
  split; [exact Hrun|].
  destruct (main_raises_only_from_extractors ascii_only ascii_only
              ascii_only no_docx csv_reader csv_reader elements
              (λ s, reflexivity _) codes_csv bad_txt default_pattern
              UnicodeDecodeError [] Hrun) as [Htab | Htext].
  - exfalso. revert Htab. compute_done.
  - exact Htext.
Defined.

Lemma show_results_panels_witness :
  show_results titles_workbook
    (result_columns elements {[ PStr (py "INT-2") ]} {[ PStr (py "INT-1") ]}
       ∅)
  = ([ DownloadButton (128229 :: py " Download Results")
         (bytes_of
            "Matching codesCodes only in Excel/CSVCodes only in Word/TXT")
         (py "comparison_result.xlsx");
       Write 0 (py "### Matching Codes");
       Dataframe 0 [("Matching codes"%string,
                     Some <$> elements ({[ PStr (py "INT-2") ]} : gset pyval))];
       Write 1 (py "### Codes Only in Excel/CSV");
       Dataframe 1 [("Codes only in Excel/CSV"%string,
                     Some <$> elements ({[ PStr (py "INT-1") ]} : gset pyval))];
       Write 2 (py "### Codes Only in Word/TXT");
       Dataframe 2 [("Codes only in Word/TXT"%string,
                     Some <$> elements (∅ : gset pyval))] ],
     None).
Proof.
  apply (proj1 (show_results_panels elements titles_workbook
                  {[ PStr (py "INT-2") ]} {[ PStr (py "INT-1") ]} ∅)).
  vm_compute. reflexivity.
Defined.

Lemma compare_codes_heap_fresh_witness :
  ∃ a b c h',
    compare_codes_heap 0 0 (<[0%nat := {[ PStr (py "INT-1") ]}]> ∅)
    = Some (a, b, c, h')
    ∧ a ≠ 0%nat ∧ b ≠ 0%nat ∧ c ≠ 0%nat
    ∧ h' !! 0%nat = Some {[ PStr (py "INT-1") ]}.
Proof.
  destruct (compare_codes_heap_fresh
              (<[0%nat := {[ PStr (py "INT-1") ]}]> ∅) 0 0
              {[ PStr (py "INT-1") ]} {[ PStr (py "INT-1") ]})
    as (a & b & c & h' & Hcall & Ha & Hb & Hc & _ & _ & _ & Hkeep);
    [reflexivity | reflexivity |].
  exists a, b, c, h'. split; [exact Hcall|].
  split; [intros ->; discriminate Ha|].
  split; [intros ->; discriminate Hb|].
  split; [intros ->; discriminate Hc|].
  apply Hkeep. reflexivity.
Defined.

Lemma finditer_in_text_order_witness :
  finditer ascii_only ascii_only ascii_only (py "INT-1 INT-22")
    (Seq (Literal 73) (Repeat true 1 None (In true [SLiteral 32])))
  = [ (0%nat, {| pos := 5; marks := ∅ |});
      (6%nat, {| pos := 12; marks := ∅ |}) ]
  ∧ (5 ≤ 6)%nat ∧ (6 ≤ 12 ≤ 12)%nat.
Proof.
  assert (Hrun : finditer ascii_only ascii_only ascii_only
                   (py "INT-1 INT-22")
                   (Seq (Literal 73)
                      (Repeat true 1 None (In true [SLiteral 32])))
                 = [ (0%nat, {| pos := 5; marks := ∅ |});
                     (6%nat, {| pos := 12; marks := ∅ |}) ])
    by (vm_compute; reflexivity).
  split; [exact Hrun|].
  destruct (finditer_in_text_order ascii_only ascii_only ascii_only
              (py "INT-1 INT-22")
              (Seq (Literal 73) (Repeat true 1 None (In true [SLiteral 32]))))
    as [Horder Hinside].
  split.
  - apply (Horder 0%nat 1%nat (0%nat, {| pos := 5; marks := ∅ |})
             (6%nat, {| pos := 12; marks := ∅ |})).
    + lia.
    + rewrite Hrun. reflexivity.
    + rewrite Hrun. reflexivity.
  - apply (Hinside (6%nat, {| pos := 12; marks := ∅ |})).
    rewrite Hrun. apply list_elem_of_In. right. left. reflexivity.
Defined.
